(** * visible_waves: synthetic mono waveforms

    A shallow embedding of [__main__.py]: the [MonoWave] container with its
    two generators [SimpleHarmonicWave] and [SquareWave], together with the
    parts of the Python and NumPy run time the constructors rely on (binary64
    arithmetic, [fractions.Fraction], [np.arange], [np.round], [astype],
    [byteswap]).

    Python floats and [np.float64] are IEEE 754 binary64 numbers; they are
    modelled by the Standard Library's executable specification
    [spec_float] at precision 53 and maximal exponent 1024. *)

From Stdlib Require Import ZArith List Bool String Ascii Lia QArith.
From Stdlib Require Import Floats.SpecFloat.
Import ListNotations.

Local Open Scope Z_scope.

(** ** Outcomes of a Python computation *)

Inductive exn : Type :=
| ValueError (msg : string)
| AssertionError
| ZeroDivisionError
| OverflowError
| WaveError (msg : string)
| StructError
| OSError.

(** A computation returns a value, raises an exception, or runs into a C
    conversion whose result the C standard leaves undefined. *)
Inductive outcome (A : Type) : Type :=
| Ok (a : A)
| Raise (e : exn)
| Undefined.

Arguments Ok {A} a.
Arguments Raise {A} e.
Arguments Undefined {A}.

Definition bind {A B : Type} (c : outcome A) (k : A -> outcome B) : outcome B :=
  match c with
  | Ok a => k a
  | Raise e => Raise e
  | Undefined => Undefined
  end.

Notation "x <- c ;; k" := (bind c (fun x => k))
  (at level 61, c at next level, right associativity).

Definition assert (b : bool) : outcome unit :=
  if b then Ok tt else Raise AssertionError.

(** Monadic map over a list, left to right. *)
Fixpoint mapM {A B : Type} (f : A -> outcome B) (l : list A) : outcome (list B) :=
  match l with
  | [] => Ok []
  | a :: l' => b <- f a ;; bs <- mapM f l' ;; Ok (b :: bs)
  end.

(** ** binary64 floating point *)

Module F64.

Definition prec : Z := 53.
Definition emax : Z := 1024.

Definition float : Type := spec_float.

Definition mul : float -> float -> float := SFmul prec emax.
Definition div : float -> float -> float := SFdiv prec emax.
Definition add : float -> float -> float := SFadd prec emax.
Definition sub : float -> float -> float := SFsub prec emax.
Definition opp : float -> float := SFopp.
Definition eqb : float -> float -> bool := SFeqb.
Definition ltb : float -> float -> bool := SFltb.
Definition leb : float -> float -> bool := SFleb.

Definition zero : float := S754_zero false.

(** Nearest binary64 number to an integer, ties to even: the conversion
    done by [PyLong_AsDouble] and by C's [(double)i]. *)
Definition of_Z (z : Z) : float := binary_normalize prec emax z 0 false.

Definition one : float := of_Z 1.
Definition half : float := div one (of_Z 2).

(** Correctly rounded quotient of two integers, Python's [a / b] on ints. *)
Definition of_ratio (a b : Z) : float :=
  match a, b with
  | Zpos p, Zpos q => div (S754_finite false p 0) (S754_finite false q 0)
  | Zneg p, Zpos q => div (S754_finite true p 0) (S754_finite false q 0)
  | Zpos p, Zneg q => div (S754_finite false p 0) (S754_finite true q 0)
  | Zneg p, Zneg q => div (S754_finite true p 0) (S754_finite true q 0)
  | Z0, Zneg _ => S754_zero true
  | _, _ => div (of_Z a) (of_Z b)
  end.

Definition is_finite (x : float) : bool :=
  match x with
  | S754_zero _ | S754_finite _ _ _ => true
  | _ => false
  end.

Definition is_nan (x : float) : bool :=
  match x with S754_nan => true | _ => false end.

Definition sign (x : float) : bool :=
  match x with
  | S754_zero s | S754_infinity s | S754_finite s _ _ => s
  | S754_nan => false
  end.

Definition copysign (x y : float) : float :=
  if Bool.eqb (sign x) (sign y) then x else opp x.

(** The magnitude of a finite number is [m * 2^e]; with [e < 0] it is the
    fraction [m / 2^(-e)]. *)
Definition signed (s : bool) (z : Z) : Z := if s then - z else z.

(** Largest integer not above [x] and smallest integer not below [x];
    [None] for infinities and NaN. *)
Definition floorZ (x : float) : option Z :=
  match x with
  | S754_zero _ => Some 0
  | S754_finite s m e =>
      if 0 <=? e then Some (signed s (Zpos m * 2 ^ e))
      else Some (signed s (Zpos m) / 2 ^ (- e))
  | _ => None
  end.

Definition ceilZ (x : float) : option Z :=
  match x with
  | S754_zero _ => Some 0
  | S754_finite s m e =>
      if 0 <=? e then Some (signed s (Zpos m * 2 ^ e))
      else Some (- (signed (negb s) (Zpos m) / 2 ^ (- e)))
  | _ => None
  end.

(** Integer nearest to the magnitude [m / 2^k], ties to even. *)
Definition round_half_even (m k : Z) : Z :=
  let q := m / 2 ^ k in
  let r := m mod 2 ^ k in
  match 2 * r ?= 2 ^ k with
  | Lt => q
  | Gt => q + 1
  | Eq => if Z.even q then q else q + 1
  end.

Definition rintZ (x : float) : option Z :=
  match x with
  | S754_zero _ => Some 0
  | S754_finite s m e =>
      if 0 <=? e then Some (signed s (Zpos m * 2 ^ e))
      else Some (signed s (round_half_even (Zpos m) (- e)))
  | _ => None
  end.

(** An integer-valued float with the sign bit [s] kept on zero. *)
Definition integral (s : bool) (z : Z) : float := binary_normalize prec emax z 0 s.

(** C's [floor] and [rint] (the latter is what [np.round] applies to each
    element): numbers with a non-negative exponent are integers already. *)
Definition floor (x : float) : float :=
  match x with
  | S754_finite s m e =>
      if 0 <=? e then x
      else match floorZ x with Some z => integral s z | None => x end
  | _ => x
  end.

Definition rint (x : float) : float :=
  match x with
  | S754_finite s m e =>
      if 0 <=? e then x
      else match rintZ x with Some z => integral s z | None => x end
  | _ => x
  end.

(** C's [fmod]: the exact remainder of [x / y] with the sign of [x]. *)
Definition fmod (x y : float) : float :=
  match x, y with
  | S754_nan, _ | _, S754_nan => S754_nan
  | S754_infinity _, _ => S754_nan
  | _, S754_zero _ => S754_nan
  | S754_zero _, _ => x
  | S754_finite _ _ _, S754_infinity _ => x
  | S754_finite sx mx ex, S754_finite _ my ey =>
      let e := Z.min ex ey in
      let r := Z.rem (Zpos mx * 2 ^ (ex - e)) (Zpos my * 2 ^ (ey - e)) in
      binary_normalize prec emax (signed sx r) e sx
  end.

(** A float is falsy in C when it compares equal to zero. *)
Definition nonzero (x : float) : bool := negb (eqb x zero).

(** CPython's [_float_div_mod] (Objects/floatobject.c), which computes
    [divmod] of two floats; the caller has excluded a zero divisor. *)
Definition float_div_mod (vx wx : float) : float * float :=
  let mod0 := fmod vx wx in
  let div0 := div (sub vx mod0) wx in
  let '(mod1, div1) :=
    if nonzero mod0 then
      if negb (Bool.eqb (ltb wx zero) (ltb mod0 zero))
      then (add mod0 wx, sub div0 one)
      else (mod0, div0)
    else (copysign zero wx, div0) in
  let floordiv :=
    if nonzero div1 then
      let fl := floor div1 in
      if ltb half (sub div1 fl) then add fl one else fl
    else copysign zero (div vx wx) in
  (floordiv, mod1).

(** [float.__floordiv__] and [float.__mod__]. *)
Definition floordiv (vx wx : float) : outcome float :=
  if eqb wx zero then Raise ZeroDivisionError
  else Ok (fst (float_div_mod vx wx)).

Definition rem (vx wx : float) : outcome float :=
  if eqb wx zero then Raise ZeroDivisionError
  else
    let mod0 := fmod vx wx in
    Ok (if nonzero mod0 then
          if negb (Bool.eqb (ltb wx zero) (ltb mod0 zero)) then add mod0 wx else mod0
        else copysign zero wx).

(** [math.tau], the binary64 number nearest to 2 pi:
    [0x1.921fb54442d18p+2]. *)
Definition tau : float := S754_finite false 7074237752028440 (-50).

End F64.

(** A Python [int] converted to a [float] for mixed arithmetic
    ([PyLong_AsDouble]): too large an integer raises [OverflowError]. *)
Definition py_float_of_int (z : Z) : outcome F64.float :=
  let x := F64.of_Z z in
  if F64.is_finite x then Ok x else Raise OverflowError.

(** A number passed to a constructor is a Python [int] or a Python [float]. *)
Inductive pynum : Type :=
| PyInt (z : Z)
| PyFloat (x : F64.float).

(** [a * b] for a number [a] and an [int] [b]. *)
Definition py_mul_int (a : pynum) (b : Z) : outcome pynum :=
  match a with
  | PyInt z => Ok (PyInt (z * b))
  | PyFloat x => y <- py_float_of_int b ;; Ok (PyFloat (F64.mul x y))
  end.

(** ** [fractions.Fraction] *)

Record Fraction : Type := mkFraction { numerator : Z; denominator : Z }.

(** [Fraction(n, d)] on two ints: the sign goes to the numerator and the
    pair is divided by its gcd. *)
Definition Fraction_normalized (n d : Z) : Fraction :=
  let g := Z.gcd n d in
  let g := if d <? 0 then - g else g in
  {| numerator := n / g; denominator := d / g |}.

Definition Fraction_new (n d : Z) : outcome Fraction :=
  if d =? 0 then Raise ZeroDivisionError else Ok (Fraction_normalized n d).

(** [a * i] and [i * a] for a fraction [a] and an int [i] (an int has
    denominator 1), and [a / i]. *)
Definition Fraction_mul_int (a : Fraction) (i : Z) : Fraction :=
  Fraction_normalized (numerator a * i) (denominator a * 1).

Definition Fraction_div_int (a : Fraction) (i : Z) : outcome Fraction :=
  Fraction_new (numerator a * 1) (denominator a * i).

(** [float(a)] is the correctly rounded [a.numerator / a.denominator]. *)
Definition Fraction_float (a : Fraction) : F64.float :=
  F64.of_ratio (numerator a) (denominator a).

(** [i // b] for an int [i]: [Fraction.__rfloordiv__] sees a Rational and
    divides exactly. *)
Definition int_floordiv_Fraction (i : Z) (b : Fraction) : outcome Z :=
  let d := 1 * numerator b in
  if d =? 0 then Raise ZeroDivisionError else Ok ((i * denominator b) / d).

(** [x // b] for a float [x]: [float.__floordiv__] does not know fractions,
    and [Fraction.__rfloordiv__] falls back to [float(x) // float(b)]. *)
Definition float_floordiv_Fraction (x : F64.float) (b : Fraction) : outcome F64.float :=
  F64.floordiv x (Fraction_float b).

Definition Fraction_to_Q (a : Fraction) : Q :=
  Qmake (numerator a) (Z.to_pos (denominator a)).

(** ** NumPy dtypes and arrays *)

(** The attributes of a [np.dtype] the program reads.  [kind] is a
    character code (["i"] signed integer, ["u"] unsigned, ["f"] floating,
    ["b"], ["c"], ["O"], ...), [itemsize] the element size in bytes and
    [byteorder] one of ["="] (native), ["<"], [">"] and ["|"] (not
    applicable, reported for one-byte elements). *)
Record dtype : Type := mkDtype { kind : ascii; itemsize : Z; byteorder : ascii }.

(** The signed integer dtypes NumPy provides. *)
Definition signed_integer_dtype (dt : dtype) : bool :=
  Ascii.eqb (kind dt) "i"
  && ((itemsize dt =? 1) && Ascii.eqb (byteorder dt) "|"
      || ((itemsize dt =? 2) || (itemsize dt =? 4) || (itemsize dt =? 8))
         && (Ascii.eqb (byteorder dt) "=" || Ascii.eqb (byteorder dt) "<"
             || Ascii.eqb (byteorder dt) ">")).

Definition int8 : dtype := mkDtype "i" 1 "|".
Definition int16 : dtype := mkDtype "i" 2 "=".
Definition int32 : dtype := mkDtype "i" 4 "=".
Definition int64 : dtype := mkDtype "i" 8 "=".
Definition uint8 : dtype := mkDtype "u" 1 "|".
Definition float32 : dtype := mkDtype "f" 4 "=".

Inductive endian : Type := Little | Big.

(** An array owns a buffer; element [k] of a flat array occupies
    [itemsize] consecutive bytes, kept here as one list per element, in
    memory order.  A byte is an integer in [0, 256). *)
Record ndarray : Type :=
  mkArray { arr_dtype : dtype; ndim : Z; elements : list (list Z) }.

Definition size (a : ndarray) : Z := Z.of_nat (List.length (elements a)).

(** [a.byteswap()]: a copy with the bytes of every element reversed, under
    the same dtype. *)
Definition byteswap (a : ndarray) : ndarray :=
  {| arr_dtype := arr_dtype a; ndim := ndim a; elements := map (@rev Z) (elements a) |}.

(** [dt.newbyteorder(c)]; a one-byte dtype keeps ["|"]. *)
Definition newbyteorder (dt : dtype) (c : ascii) : dtype :=
  {| kind := kind dt; itemsize := itemsize dt;
     byteorder := if itemsize dt =? 1 then "|"%char else c |}.

(** [a.view(dt)]: the same buffer read under another dtype of the same
    item size. *)
Definition view (a : ndarray) (dt : dtype) : ndarray :=
  {| arr_dtype := dt; ndim := ndim a; elements := elements a |}.

(** Two's complement, least significant byte first. *)
Fixpoint le_bytes (w : nat) (v : Z) : list Z :=
  match w with
  | O => []
  | S w' => v mod 256 :: le_bytes w' (v / 256)
  end.

Fixpoint le_value (bs : list Z) : Z :=
  match bs with
  | [] => 0
  | b :: bs' => b + 256 * le_value bs'
  end.

Definition in_order (o : endian) (bs : list Z) : list Z :=
  match o with Little => bs | Big => rev bs end.

Definition encode (o : endian) (w : Z) (v : Z) : list Z :=
  in_order o (le_bytes (Z.to_nat w) v).

Definition decode (o : endian) (bs : list Z) : Z :=
  let u := le_value (in_order o bs) in
  let w := 8 * Z.of_nat (List.length bs) in
  if u <? 2 ^ (w - 1) then u else u - 2 ^ w.

(** The result of [np.arange(stop)]: an [int64] array for an int [stop], a
    [float64] array for a float. *)
Inductive numarray : Type :=
| IntArray (ns : list Z)
| FloatArray (xs : list F64.float).

Definition iota (len : Z) : list Z := map Z.of_nat (seq 0 (Z.to_nat len)).

(** [np.arange(stop)].  For a float the length is [ceil(stop)]
    ([_arange_safe_ceil_to_intp]) and element [i] is [0.0 + i * 1.0]; a
    non-positive length gives the empty array.  A length that does not fit
    the index type is reported as a [ValueError]. *)
Definition np_arange (stop : pynum) : outcome numarray :=
  match stop with
  | PyInt n => Ok (IntArray (iota n))
  | PyFloat x =>
      match F64.ceilZ x with
      | None =>
          if F64.is_nan x
          then Raise (ValueError "arange: cannot compute length")
          else Raise (ValueError "Maximum allowed size exceeded")
      | Some len =>
          if (len <? - 2 ^ 63) || (2 ^ 63 <? len)
          then Raise (ValueError "Maximum allowed size exceeded")
          else Ok (FloatArray (map F64.of_Z (iota len)))
      end
  end.

(** Elements as [float64], the conversion NumPy applies before a float
    operation on an [int64] array. *)
Definition as_float64 (a : numarray) : list F64.float :=
  match a with
  | IntArray ns => map F64.of_Z ns
  | FloatArray xs => xs
  end.

Definition numarray_size (a : numarray) : nat :=
  match a with
  | IntArray ns => List.length ns
  | FloatArray xs => List.length xs
  end.

(** ** The [MonoWave] class *)

Record MonoWave : Type :=
  mkMonoWave { samples : ndarray; framerate : Z; step : Fraction; duration : Fraction }.

(** [MonoWave.__init__].  The result of [samples.view(...)] is dropped, as
    in the source. *)
Definition MonoWave_init (samples : ndarray) (framerate : Z) : outcome MonoWave :=
  _ <- assert (Ascii.eqb (kind (arr_dtype samples)) "i") ;;
  _ <- assert (ndim samples =? 1) ;;
  let samples :=
    if negb (Ascii.eqb (byteorder (arr_dtype samples)) "=")
    then byteswap samples else samples in
  let _ := view samples (newbyteorder (arr_dtype samples) "=") in
  step <- Fraction_new 1 framerate ;;
  let duration := Fraction_mul_int step (size samples) in
  Ok {| samples := samples; framerate := framerate; step := step; duration := duration |}.

(** What lies outside the object: the plotting library's command stream and
    the file system. *)
Inductive plot_cmd : Type :=
| PltFigure
| PltXlim (lo hi : F64.float)
| PltTitle (s : string)
| PltXlabel (s : string)
| PltScatter (xs : list Fraction) (ys : list Z)
| PltShow.

Record wav_data : Type :=
  mkWav { nchannels : Z; sampwidth : Z; wav_framerate : Z; comptype : string;
          frames : list Z }.

(** A file is empty as [open] leaves it, a complete WAV file, or bytes
    that are no WAV file. *)
Inductive file : Type :=
| Unfinished
| WavFile (w : wav_data)
| NotWav (bytes : list Z).

Record World : Type :=
  mkWorld { plots : list plot_cmd; files : string -> option file;
            can_open : string -> bool }.

Definition write_file (w : World) (name : string) (f : file) : World :=
  {| plots := plots w;
     files := fun n => if String.eqb n name then Some f else files w n;
     can_open := can_open w |}.

Definition plot (w : World) (c : plot_cmd) : World :=
  {| plots := plots w ++ [c]; files := files w; can_open := can_open w |}.

(** A method runs on the object it is called on and on the world; it may
    read and change both. *)
Record State : Type := mkState { self : MonoWave; world : World }.

Definition Method (A : Type) : Type := State -> outcome A * State.

Definition ret {A : Type} (a : A) : Method A := fun st => (Ok a, st).

Definition throw {A : Type} (e : exn) : Method A := fun st => (Raise e, st).

Definition lift {A : Type} (c : outcome A) : Method A := fun st => (c, st).

Definition mbind {A B : Type} (c : Method A) (k : A -> Method B) : Method B :=
  fun st =>
    match c st with
    | (Ok a, st') => k a st'
    | (Raise e, st') => (Raise e, st')
    | (Undefined, st') => (Undefined, st')
    end.

Notation "x <<- c ;;; k" := (mbind c (fun x => k))
  (at level 61, c at next level, right associativity).
Notation "c ;;; k" := (mbind c (fun _ => k))
  (at level 61, right associativity).

(** Reading an attribute of [self], and assigning the attributes. *)
Definition attr {A : Type} (field : MonoWave -> A) : Method A :=
  fun st => (Ok (field (self st)), st).

Definition setattr (obj : MonoWave) : Method unit :=
  fun st => (Ok tt, {| self := obj; world := world st |}).

(** One call into [matplotlib.pyplot]. *)
Definition plt (c : plot_cmd) : Method unit :=
  fun st => (Ok tt, {| self := self st; world := plot (world st) c |}).

(** [wave.open(filename, "wb")] and the write on closing the file. *)
Definition open_wb (filename : string) : Method unit :=
  fun st =>
    if can_open (world st) filename
    then (Ok tt, {| self := self st; world := write_file (world st) filename Unfinished |})
    else (Raise OSError, st).

Definition write (filename : string) (f : file) : Method unit :=
  fun st => (Ok tt, {| self := self st; world := write_file (world st) filename f |}).

Section Host.

(** Byte order of the machine, and its C library's [sin]. *)
Variable host : endian.
Variable np_sin : F64.float -> F64.float.

(** The byte order in which a dtype keeps its elements. *)
Definition storage_order (dt : dtype) : endian :=
  if Ascii.eqb (byteorder dt) "<" then Little
  else if Ascii.eqb (byteorder dt) ">" then Big
  else host.

(** The integers NumPy reads from an integer array. *)
Definition values (a : ndarray) : list Z :=
  map (decode (storage_order (arr_dtype a))) (elements a).

(** The C conversion of one [float64] to a signed integer of [w] bytes:
    the fraction is dropped, and a value that does not fit the
    target (or is not a number) has no defined result. *)
Definition cast_to_int (w : Z) (x : F64.float) : outcome Z :=
  match x with
  | S754_zero _ => Ok 0
  | S754_finite s m e =>
      let z := if 0 <=? e then F64.signed s (Zpos m * 2 ^ e)
               else F64.signed s (Zpos m / 2 ^ (- e)) in
      if (- 2 ^ (8 * w - 1) <=? z) && (z <=? 2 ^ (8 * w - 1) - 1)
      then Ok z else Undefined
  | _ => Undefined
  end.

(** [xs.astype(dt)] for a [float64] array and a signed integer [dt]. *)
Definition astype (xs : list F64.float) (dt : dtype) : outcome ndarray :=
  zs <- mapM (cast_to_int (itemsize dt)) xs ;;
  Ok {| arr_dtype := dt; ndim := 1;
        elements := map (encode (storage_order dt) (itemsize dt)) zs |}.

(** [np.arange(0, stop, step)] on fractions: an object array of
    [ceil(float(stop / step))] elements [0 + i * step]. *)
Definition Fraction_arange (stop step : Fraction) : outcome (list Fraction) :=
  q <- Fraction_new (numerator stop * denominator step) (denominator stop * numerator step) ;;
  match F64.ceilZ (Fraction_float q) with
  | Some len => Ok (map (Fraction_mul_int step) (iota len))
  | None => Raise (ValueError "Maximum allowed size exceeded")
  end.

(** [MonoWave.show]. *)
Definition show (title : string) : Method unit :=
  plt PltFigure ;;;
  rate <<- attr framerate ;;;
  (if rate =? 0 then throw ZeroDivisionError
   else plt (PltXlim (F64.of_Z 0) (F64.of_ratio 256 rate))) ;;;
  (if negb (String.eqb title "") then plt (PltTitle title) else ret tt) ;;;
  plt (PltXlabel "time (s)") ;;;
  stop <<- attr duration ;;;
  delta <<- attr step ;;;
  times <<- lift (Fraction_arange stop delta) ;;;
  ys <<- attr samples ;;;
  plt (PltScatter times (values ys)) ;;;
  plt PltShow.

(** The bytes [writeframes] puts in the file: the buffer as it is on a
    little-endian machine; the [wave] module swaps wider samples on a
    big-endian one. *)
Definition frame_bytes (a : ndarray) : list Z :=
  match host with
  | Little => List.concat (elements a)
  | Big => if itemsize (arr_dtype a) =? 1 then List.concat (elements a)
           else List.concat (map (@rev Z) (elements a))
  end.

(** The WAV header keeps the length of the file, the frame rate and the
    byte rate in unsigned 32-bit fields ([struct] format [L]). *)
Definition header_fits (width rate datalength : Z) : bool :=
  (36 + datalength <? 2 ^ 32) && (rate <? 2 ^ 32) && (rate * width <? 2 ^ 32).

(** The four bytes of the tag [RIFF] that open the header. *)
Definition riff : list Z := [82; 73; 70; 70].

(** [MonoWave.save].  [wave.open] creates the file.  [wave] accepts sample
    widths 1 to 4 and a positive frame rate; a setter that refuses its
    argument leaves the parameter unset, and it is the closing of the file
    at the end of the [with] block that reports this, before anything is
    written.  [writeframes] writes the header and the frames; when a
    header field does not fit, packing it raises [struct.error] after the
    tag has been written, and so does the second attempt on closing. *)
Definition save (filename : string) : Method unit :=
  open_wb filename ;;;
  ys <<- attr samples ;;;
  let width := itemsize (arr_dtype ys) in
  (if (width <? 1) || (4 <? width) then throw (WaveError "sample width not specified")
   else ret tt) ;;;
  rate <<- attr framerate ;;;
  (if rate <=? 0 then throw (WaveError "sampling rate not specified") else ret tt) ;;;
  if header_fits width rate (size ys * width)
  then write filename
         (WavFile {| nchannels := 1; sampwidth := width; wav_framerate := rate;
                     comptype := "NONE"; frames := frame_bytes ys |})
  else write filename (NotWav (riff ++ riff)) ;;; throw StructError.

(** ** The generators *)

(** [amplitude = (2 ** (dtype.itemsize * 8 - 1) - 1) * volume], an int
    times a float. *)
Definition amplitude_of (dt : dtype) (volume : F64.float) : outcome F64.float :=
  peak <- py_float_of_int (2 ^ (itemsize dt * 8 - 1) - 1) ;;
  Ok (F64.mul peak volume).

(** The checks both constructors start with. *)
Definition check_arguments (dt : dtype) (volume : F64.float) : outcome unit :=
  if negb (Ascii.eqb (kind dt) "i")
  then Raise (ValueError "dtype must be signed integer")
  else assert (F64.leb F64.zero volume && F64.leb volume F64.one).

(** Element [s] of [tau * frequency * samples / framerate] and of
    [amplitude * np.sin(...)]. *)
Definition harmonic_phase (tau_frequency : F64.float) (framerate : Z)
    (s : F64.float) : F64.float :=
  F64.div (F64.mul tau_frequency s) (F64.of_Z framerate).

Definition harmonic_value (amplitude tau_frequency : F64.float) (framerate : Z)
    (s : F64.float) : F64.float :=
  F64.mul amplitude (np_sin (harmonic_phase tau_frequency framerate s)).

(** The array [np.round(samples)] of [SimpleHarmonicWave.__init__], just
    before [astype]. *)
Definition harmonic_rounded (frequency : Z) (dt : dtype) (framerate : Z)
    (duration : pynum) (volume : F64.float) : outcome (list F64.float) :=
  _ <- check_arguments dt volume ;;
  amplitude <- amplitude_of dt volume ;;
  stop <- py_mul_int duration framerate ;;
  samples <- np_arange stop ;;
  f <- py_float_of_int frequency ;;
  let tau_frequency := F64.mul F64.tau f in
  let samples := map (harmonic_value amplitude tau_frequency framerate) (as_float64 samples) in
  Ok (map F64.rint samples).

Definition SimpleHarmonicWave (frequency : Z) (dt : dtype) (framerate : Z)
    (duration : pynum) (volume : F64.float) : outcome MonoWave :=
  rounded <- harmonic_rounded frequency dt framerate duration volume ;;
  samples <- astype rounded dt ;;
  MonoWave_init samples framerate.

(** [samples // samples_per_half_period % 2 == 0], element by element.  The
    fraction makes NumPy work on Python objects: an [int64] array yields
    ints, whose floor division by a fraction is exact; a [float64] array
    yields floats, for which Python divides by [float(fraction)]. *)
Definition even_half_period (samples : numarray) (samples_per_half_period : Fraction)
  : outcome (list bool) :=
  match samples with
  | IntArray ns =>
      mapM (fun n => q <- int_floordiv_Fraction n samples_per_half_period ;;
                     Ok (q mod 2 =? 0)) ns
  | FloatArray xs =>
      mapM (fun x => q <- float_floordiv_Fraction x samples_per_half_period ;;
                     r <- F64.rem q (F64.of_Z 2) ;;
                     Ok (F64.eqb r F64.zero)) xs
  end.

(** [samples_per_half_period = Fraction(1, frequency) * framerate / 2]. *)
Definition half_period (frequency framerate : Z) : outcome Fraction :=
  period <- Fraction_new 1 frequency ;;
  Fraction_div_int (Fraction_mul_int period framerate) 2.

(** The array [np.round(samples)] of [SquareWave.__init__], just before
    [astype]. *)
Definition square_rounded (frequency : Z) (dt : dtype) (framerate : Z)
    (duration : pynum) (volume : F64.float) : outcome (list F64.float) :=
  _ <- check_arguments dt volume ;;
  amplitude <- amplitude_of dt volume ;;
  stop <- py_mul_int duration framerate ;;
  samples <- np_arange stop ;;
  samples_per_half_period <- half_period frequency framerate ;;
  even <- even_half_period samples samples_per_half_period ;;
  let samples := map (fun c : bool => if c then amplitude else F64.opp amplitude) even in
  Ok (map F64.rint samples).

Definition SquareWave (frequency : Z) (dt : dtype) (framerate : Z)
    (duration : pynum) (volume : F64.float) : outcome MonoWave :=
  rounded <- square_rounded frequency dt framerate duration volume ;;
  samples <- astype rounded dt ;;
  MonoWave_init samples framerate.

End Host.

(** ** A reference [sin]

    The C library's [sin] is a parameter of the development.  [Libm.sin] is
    one such function, used to run the harmonic generator: it works on
    fixed-point numbers with 128 fractional bits, reduces the argument by
    multiples of pi/2 and sums the Taylor series of [sin] or [cos]. *)

Module Libm.

Definition bits : Z := 128.
Definition unit : Z := 2 ^ bits.

(** [floor (pi / 2 * 2^128)]. *)
Definition half_pi : Z := 534514292032483373929840186580935391650.

(** [floor (x * 2^128)] for the magnitude [m * 2^e]. *)
Definition to_fixed (s : bool) (m : positive) (e : Z) : Z :=
  F64.signed s (if 0 <=? e + bits then Zpos m * 2 ^ (e + bits)
                else Zpos m / 2 ^ (- (e + bits))).

(** Sum of the series whose term [i + 1] is [- term i * r2 / ((n + 1) (n + 2))]. *)
Fixpoint series (fuel : nat) (term r2 n acc : Z) : Z :=
  match fuel with
  | O => acc
  | S fuel' =>
      let term' := - (term * r2 / unit) / ((n + 1) * (n + 2)) in
      series fuel' term' r2 (n + 2) (acc + term')
  end.

Definition sin_fixed (x : Z) : Z :=
  let k := (2 * x + half_pi) / (2 * half_pi) in
  let r := x - k * half_pi in
  let r2 := r * r / unit in
  let s := series 24 r r2 1 r in
  let c := series 24 unit r2 0 unit in
  let y := match k mod 4 with
           | 0 => s
           | 1 => c
           | 2 => - s
           | _ => - c
           end in
  Z.max (- unit) (Z.min unit y).

Definition sin (x : F64.float) : F64.float :=
  match x with
  | S754_zero _ => x
  | S754_finite s m e =>
      let fx := to_fixed s m e in
      if fx =? 0 then x
      else binary_normalize F64.prec F64.emax (sin_fixed fx) (- bits) s
  | _ => S754_nan
  end.

End Libm.

(** ** Quantities the statements refer to *)

(** The length [np.arange(stop)] computes, before a negative one is
    replaced by zero. *)
Definition arange_length (stop : pynum) : option Z :=
  match stop with
  | PyInt n => Some n
  | PyFloat x => F64.ceilZ x
  end.

(** The peak [2 ** (dtype.itemsize * 8 - 1) - 1] and the amplitude both
    constructors derive from it. *)
Definition peak (dt : dtype) : Z := 2 ^ (itemsize dt * 8 - 1) - 1.

Definition amplitude (dt : dtype) (volume : F64.float) : F64.float :=
  F64.mul (F64.of_Z (peak dt)) volume.

(** [round(stop)], and whether [stop] is a whole number. *)
Definition py_round (stop : pynum) : option Z :=
  match stop with
  | PyInt n => Some n
  | PyFloat x => F64.rintZ x
  end.

Definition whole (stop : pynum) : Prop :=
  match stop with
  | PyInt _ => True
  | PyFloat x => F64.is_finite x = true /\ F64.floorZ x = F64.ceilZ x
  end.

(** The parity test on one float element once the divisor [w] is known to
    be non-zero: [x // w % 2 == 0]. *)
Definition float_even (w x : F64.float) : bool :=
  let q := fst (F64.float_div_mod x w) in
  let two := F64.of_Z 2 in
  let mod0 := F64.fmod q two in
  F64.eqb
    (if F64.nonzero mod0 then
       if negb (Bool.eqb (F64.ltb two F64.zero) (F64.ltb mod0 F64.zero))
       then F64.add mod0 two else mod0
     else F64.copysign F64.zero two)
    F64.zero.

(** The parity tests the square generator runs on an [arange] result, and
    the condition under which none of them divides by zero. *)
Definition parities (arr : numarray) (hp : Fraction) : list bool :=
  match arr with
  | IntArray ns => map (fun n => Z.even ((n * denominator hp) / numerator hp)) ns
  | FloatArray xs => map (float_even (Fraction_float hp)) xs
  end.

Definition divides (arr : numarray) (hp : Fraction) : Prop :=
  match arr with
  | IntArray _ => numerator hp <> 0
  | FloatArray _ => F64.eqb (Fraction_float hp) F64.zero = false
  end.

(** The square-wave sample as the specification words it: [+amplitude]
    when [floor (n / half_period)] is even and [-amplitude] otherwise, the
    quotient taken over the rationals, then rounded. *)
Definition square_sample_spec (amplitude : F64.float) (half_period : Fraction)
    (n : Z) : F64.float :=
  F64.rint
    (if Z.even ((n * denominator half_period) / numerator half_period)
     then amplitude else F64.opp amplitude).

(** A method preserves the object when no run of it changes [self]. *)
Definition preserves {A : Type} (m : Method A) : Prop :=
  forall st, self (snd (m st)) = self st.

(** ** Magnitudes and bounds *)

(** [N * 2^e <= A] for a magnitude with mantissa [N] and exponent [e]. *)
Definition dyadic_le (N e A : Z) : Prop :=
  if 0 <=? e then N * 2 ^ e <= A else N <= A * 2 ^ (- e).

(** State of a right shift of [N] by [k] bits: the quotient, and no flag
    set when nothing was lost. *)
Definition shifted (N k : Z) (mrs : shr_record) : Prop :=
  0 <= k /\ shr_m mrs = N / 2 ^ k
  /\ (N mod 2 ^ k = 0 -> shr_r mrs = false /\ shr_s mrs = false).

(** A finite float or zero whose magnitude does not exceed [A]. *)
Definition bounded_by (A : Z) (x : F64.float) : Prop :=
  match x with
  | S754_zero _ => True
  | S754_finite _ m e => dyadic_le (Zpos m) e A
  | _ => False
  end.

(** A bound [A] that rounding respects: a positive integer whose binary
    expansion fits 53 bits after [k] trailing zeros. *)
Definition representable (A k : Z) : Prop :=
  0 <= k <= 900 /\ 0 < A < 2 ^ (53 + k) /\ (2 ^ k | A).

(** ** Byte order and WAV frames *)

(** A dtype in the machine's byte order, as NumPy labels it. *)
Definition native (dt : dtype) : bool :=
  Ascii.eqb (byteorder dt) "=" || Ascii.eqb (byteorder dt) "|".

(** NumPy reports the machine's own order as ["="], never by its letter. *)
Definition normalized (host : endian) (dt : dtype) : bool :=
  match host with
  | Little => negb (Ascii.eqb (byteorder dt) "<")
  | Big => negb (Ascii.eqb (byteorder dt) ">")
  end.

(** The frames of a WAV file cut into [n] samples of [w] bytes, and the
    integers a reader finds in them: WAV data is little-endian two's
    complement, and the number of frames is the data length over the
    sample width. *)
Fixpoint chunks (n w : nat) (bs : list Z) : list (list Z) :=
  match n with
  | O => []
  | S n' => firstn w bs :: chunks n' w (skipn w bs)
  end.

Definition wav_samples (f : wav_data) : list Z :=
  let w := Z.to_nat (sampwidth f) in
  map (decode Little) (chunks (Nat.div (List.length (frames f)) w) w (frames f)).


(** ** Two constructions *)


(** ** Lists, [mapM] and [iota] *)

Lemma bind_Ok {A B : Type} (c : outcome A) (k : A -> outcome B) (b : B) :
  bind c k = Ok b -> exists a, c = Ok a /\ k a = Ok b.
Proof.
  destruct c as [a | e | ]; simpl; intros H; try discriminate.
  exists a; split; [reflexivity | exact H].
Qed.

Lemma mapM_total {A B : Type} (f : A -> outcome B) (g : A -> B) (l : list A) :
  (forall a, In a l -> f a = Ok (g a)) -> mapM f l = Ok (map g l).
Proof.
  induction l as [| a l IH]; simpl; intros H; [reflexivity |].
  rewrite (H a (or_introl eq_refl)); simpl.
  rewrite IH by (intros b Hb; apply H; right; exact Hb).
  reflexivity.
Qed.

Lemma mapM_Forall2 {A B : Type} (f : A -> outcome B) (l : list A) (l' : list B) :
  mapM f l = Ok l' -> Forall2 (fun a b => f a = Ok b) l l'.
Proof.
  revert l'; induction l as [| a l IH]; simpl; intros l' H.
  - injection H as <-; constructor.
  - apply bind_Ok in H as (b & Hb & H).
    apply bind_Ok in H as (bs & Hbs & H).
    injection H as <-; constructor; [exact Hb | apply IH; exact Hbs].
Qed.

Lemma Forall2_nth_error {A B : Type} (R : A -> B -> Prop) (l : list A) (l' : list B) :
  Forall2 R l l' ->
  forall n a, nth_error l n = Some a -> exists b, nth_error l' n = Some b /\ R a b.
Proof.
  induction 1 as [| x y l l' Hxy _ IH]; intros [| n] a; simpl; try discriminate.
  - intros [= <-]; exists y; split; [reflexivity | exact Hxy].
  - apply IH.
Qed.

Lemma iota_length (len : Z) : List.length (iota len) = Z.to_nat len.
Proof. unfold iota; rewrite length_map, length_seq; reflexivity. Qed.

Lemma iota_nth (len : Z) (n : nat) :
  (n < Z.to_nat len)%nat -> nth_error (iota len) n = Some (Z.of_nat n).
Proof.
  intros H; unfold iota.
  rewrite nth_error_map, nth_error_seq.
  destruct (Nat.ltb_spec n (Z.to_nat len)) as [_ | Hge]; [reflexivity | lia].
Qed.

Lemma iota_In (len z : Z) : In z (iota len) -> 0 <= z < len.
Proof.
  unfold iota; rewrite in_map_iff; intros (n & <- & Hn).
  apply in_seq in Hn; lia.
Qed.

(** The float view of an [arange] result is [0.0, 1.0, ...] whatever the
    type of [stop]. *)
Lemma np_arange_floats (stop : pynum) (a : numarray) :
  np_arange stop = Ok a ->
  exists len, arange_length stop = Some len
              /\ as_float64 a = map F64.of_Z (iota len)
              /\ numarray_size a = Z.to_nat len.
Proof.
  destruct stop as [n | x]; unfold np_arange, arange_length.
  - intros [= <-]; exists n; simpl; rewrite iota_length; auto.
  - destruct (F64.ceilZ x) as [len |]; [| destruct (F64.is_nan x); discriminate].
    destruct (_ || _); [discriminate |].
    intros [= <-]; exists len; simpl; rewrite length_map, iota_length; auto.
Qed.

(** ** Two's complement encoding *)

Lemma le_bytes_length (w : nat) (v : Z) : List.length (le_bytes w v) = w.
Proof. revert v; induction w as [| w IH]; intros v; simpl; [| rewrite IH]; reflexivity. Qed.

Lemma le_value_le_bytes (w : nat) (v : Z) :
  le_value (le_bytes w v) = v mod 256 ^ Z.of_nat w.
Proof.
  revert v; induction w as [| w IH]; intros v.
  - simpl; rewrite Z.mod_1_r; reflexivity.
  - cbn [le_bytes le_value]; rewrite IH.
    rewrite Nat2Z.inj_succ, Z.pow_succ_r by lia.
    rewrite Z.rem_mul_r by (try apply Z.pow_pos_nonneg; lia).
    reflexivity.
Qed.

Lemma in_order_involutive (o : endian) (bs : list Z) : in_order o (in_order o bs) = bs.
Proof. destruct o; simpl; [reflexivity | apply rev_involutive]. Qed.

Lemma in_order_length (o : endian) (bs : list Z) :
  List.length (in_order o bs) = List.length bs.
Proof. destruct o; simpl; [reflexivity | apply length_rev]. Qed.

(** An integer that fits [w] bytes is read back unchanged. *)
Lemma decode_encode (o : endian) (w v : Z) :
  0 < w -> - 2 ^ (8 * w - 1) <= v <= 2 ^ (8 * w - 1) - 1 ->
  decode o (encode o w v) = v.
Proof.
  intros Hw Hv; unfold decode, encode.
  rewrite in_order_involutive, in_order_length, le_bytes_length, le_value_le_bytes.
  rewrite Z2Nat.id by lia.
  replace (256 ^ w) with (2 ^ (8 * w))
    by (rewrite Z.pow_mul_r by lia; reflexivity).
  assert (Hp : 2 ^ (8 * w) = 2 * 2 ^ (8 * w - 1)).
  { rewrite <- Z.pow_succ_r by lia; f_equal; lia. }
  assert (0 < 2 ^ (8 * w - 1)) by (apply Z.pow_pos_nonneg; lia).
  destruct (Z.ltb_spec (v mod 2 ^ (8 * w)) (2 ^ (8 * w - 1))) as [Hlt | Hge].
  - destruct (Z.lt_ge_cases v 0) as [Hneg | Hpos].
    + rewrite <- (Z.mod_add v 1), Z.mod_small in Hlt; lia.
    + apply Z.mod_small; lia.
  - destruct (Z.lt_ge_cases v 0) as [Hneg | Hpos].
    + rewrite <- (Z.mod_add v 1), Z.mod_small; lia.
    + rewrite Z.mod_small in Hge; lia.
Qed.

Lemma cast_to_int_range (w : Z) (x : F64.float) (z : Z) :
  0 < w -> cast_to_int w x = Ok z -> - 2 ^ (8 * w - 1) <= z <= 2 ^ (8 * w - 1) - 1.
Proof.
  intros Hw; unfold cast_to_int; destruct x as [s | s | | s m e]; try discriminate.
  - intros [= <-].
    assert (0 < 2 ^ (8 * w - 1)) by (apply Z.pow_pos_nonneg; lia); lia.
  - destruct (_ <=? _) eqn:Hlo; [| discriminate].
    destruct (_ <=? _) eqn:Hhi in |- *; [| discriminate].
    intros [= <-]; apply Z.leb_le in Hlo, Hhi; split; assumption.
Qed.

(** The integers NumPy reads from an [astype] result are the converted
    values. *)
Lemma astype_values (host : endian) (xs : list F64.float) (dt : dtype) (a : ndarray) :
  0 < itemsize dt -> astype host xs dt = Ok a ->
  arr_dtype a = dt /\ ndim a = 1
  /\ Forall2 (fun x z => cast_to_int (itemsize dt) x = Ok z) xs (values host a).
Proof.
  intros Hw H; unfold astype in H.
  apply bind_Ok in H as (zs & Hzs & H); injection H as <-.
  split; [reflexivity | split; [reflexivity |]].
  unfold values; cbn [arr_dtype elements].
  apply mapM_Forall2 in Hzs.
  induction Hzs as [| x z xs zs Hxz _ IH]; simpl; constructor; [| exact IH].
  rewrite decode_encode; [exact Hxz | exact Hw |].
  apply cast_to_int_range with (x := x); assumption.
Qed.

(** ** Rounding never crosses a representable bound *)

Lemma dyadic_le_scaled (N e A K : Z) :
  0 <= K -> 0 <= e + K -> (dyadic_le N e A <-> N * 2 ^ (e + K) <= A * 2 ^ K).
Proof.
  intros HK HeK; unfold dyadic_le.
  destruct (Z.leb_spec 0 e) as [He | He].
  - rewrite Z.pow_add_r, Z.mul_assoc by lia.
    apply Z.mul_le_mono_pos_r, Z.pow_pos_nonneg; lia.
  - assert (HK2 : 2 ^ K = 2 ^ (- e) * 2 ^ (e + K)).
    { rewrite <- Z.pow_add_r by lia; f_equal; lia. }
    rewrite HK2, Z.mul_assoc.
    apply Z.mul_le_mono_pos_r, Z.pow_pos_nonneg; lia.
Qed.

Lemma digits2_pos_lower (p : positive) : 2 ^ (Zpos (digits2_pos p) - 1) <= Zpos p.
Proof.
  induction p as [p IH | p IH |]; simpl digits2_pos.
  - rewrite Pos2Z.inj_succ.
    replace (Z.succ (Zpos (digits2_pos p)) - 1) with (Z.succ (Zpos (digits2_pos p) - 1)) by lia.
    rewrite Z.pow_succ_r by lia. lia.
  - rewrite Pos2Z.inj_succ.
    replace (Z.succ (Zpos (digits2_pos p)) - 1) with (Z.succ (Zpos (digits2_pos p) - 1)) by lia.
    rewrite Z.pow_succ_r by lia. lia.
  - simpl; lia.
Qed.

Lemma shifted_step (N k : Z) (mrs : shr_record) :
  0 <= N -> shifted N k mrs -> shifted N (k + 1) (shr_1 mrs).
Proof.
  intros HN (Hk & Hm & Hflags).
  assert (Hpos : 0 < 2 ^ k) by (apply Z.pow_pos_nonneg; lia).
  assert (Hdiv : N / 2 ^ (k + 1) = N / 2 ^ k / 2).
  { rewrite Z.pow_add_r, Z.pow_1_r, Z.div_div by lia; reflexivity. }
  assert (Hmod : N mod 2 ^ (k + 1) = N mod 2 ^ k + 2 ^ k * ((N / 2 ^ k) mod 2)).
  { rewrite Z.pow_add_r, Z.pow_1_r by lia; apply Z.rem_mul_r; lia. }
  assert (Hlo : 0 <= N mod 2 ^ k) by (apply Z.mod_pos_bound; lia).
  assert (Hbit : 0 <= (N / 2 ^ k) mod 2 < 2) by (apply Z.mod_pos_bound; lia).
  destruct mrs as [m r s]; cbn [shr_m shr_r shr_s] in *.
  split; [lia |].
  rewrite Hdiv, Hmod, <- Hm; rewrite <- Hm in Hbit.
  assert (Hzero : N mod 2 ^ k + 2 ^ k * (m mod 2) = 0 -> orb r s = false /\ m mod 2 = 0).
  { intros H0.
    assert (Hprod : 0 <= 2 ^ k * (m mod 2)) by (apply Z.mul_nonneg_nonneg; lia).
    assert (Hz : N mod 2 ^ k = 0) by lia.
    destruct (Hflags Hz) as [-> ->]; split; [reflexivity | nia]. }
  assert (Hm0 : 0 <= m) by (rewrite Hm; apply Z.div_pos; lia).
  destruct m as [| [p | p |] | p]; try lia; cbn [shr_1 shr_m shr_r shr_s].
  - split; [reflexivity |]. intros H0; destruct (Hzero H0) as [-> _]; auto.
  - split; [rewrite Pos2Z.inj_xI; apply Z.div_unique with (r := 1); lia |].
    intros H0; destruct (Hzero H0) as [_ Hodd].
    rewrite Pos2Z.inj_xI in Hodd.
    rewrite Z.add_comm, Z.mul_comm, Z.mod_add in Hodd by lia; discriminate.
  - split; [rewrite Pos2Z.inj_xO; apply Z.div_unique with (r := 0); lia |].
    intros H0; destruct (Hzero H0) as [-> _]; auto.
  - split; [reflexivity |].
    intros H0; destruct (Hzero H0) as [_ Hodd]; discriminate.
Qed.

Lemma shifted_iter (N : Z) (p : positive) :
  0 <= N -> forall k mrs, shifted N k mrs -> shifted N (k + Zpos p) (iter_pos shr_1 p mrs).
Proof.
  intros HN; induction p as [p IH | p IH |]; intros k mrs H; cbn [iter_pos].
  - replace (k + Zpos p~1) with (k + 1 + Zpos p + Zpos p) by lia.
    apply IH, IH, shifted_step; assumption.
  - replace (k + Zpos p~0) with (k + Zpos p + Zpos p) by lia.
    apply IH, IH; assumption.
  - apply shifted_step; assumption.
Qed.

Lemma shifted_start (N : Z) : shifted N 0 (Build_shr_record N false false).
Proof.
  repeat split; cbn; try lia; rewrite Z.div_1_r; reflexivity.
Qed.

Lemma round_nearest_even_le (m : Z) (l : location) : m <= round_nearest_even m l <= m + 1.
Proof.
  destruct l as [| [ | | ]]; cbn; try destruct (Z.even m); lia.
Qed.

(** Shifting [N] right by [p] bits and rounding to nearest stays below any
    integer [B] with [N <= B * 2^p]. *)
Lemma shr_round_le (N B : Z) (p : positive) :
  0 <= N -> N <= B * 2 ^ Zpos p ->
  let mrs := iter_pos shr_1 p (Build_shr_record N false false) in
  0 <= round_nearest_even (shr_m mrs) (loc_of_shr_record mrs) <= B.
Proof.
  intros HN HB mrs.
  destruct (shifted_iter N p HN 0 _ (shifted_start N)) as (_ & Hm & Hflags).
  fold mrs in Hm, Hflags; rewrite Z.add_0_l in Hm, Hflags.
  assert (Hpos : 0 < 2 ^ Zpos p) by (apply Z.pow_pos_nonneg; lia).
  assert (Hq : 0 <= N / 2 ^ Zpos p) by (apply Z.div_pos; lia).
  assert (HqB : N / 2 ^ Zpos p <= B).
  { apply Z.div_le_upper_bound; [lia | nia]. }
  pose proof (round_nearest_even_le (shr_m mrs) (loc_of_shr_record mrs)) as Hr.
  rewrite Hm in *.
  split; [lia |].
  destruct (Z.eq_dec (N / 2 ^ Zpos p) B) as [Heq | Hne]; [| lia].
  assert (Hz : N mod 2 ^ Zpos p = 0).
  { pose proof (Z.div_mod N (2 ^ Zpos p) ltac:(lia)) as Hdm.
    pose proof (Z.mod_pos_bound N (2 ^ Zpos p) Hpos). nia. }
  destruct (Hflags Hz) as [Hr0 Hs0].
  destruct mrs as [m r s]; cbn in *; subst r s; cbn; lia.
Qed.


Lemma dyadic_le_shift (m m' e e' A : Z) :
  0 <= m' -> e <= e' -> m' * 2 ^ (e' - e) <= m -> dyadic_le m e A -> dyadic_le m' e' A.
Proof.
  intros Hm' He Hle H.
  set (K := Z.max 0 (- e)).
  apply (dyadic_le_scaled m e A K) in H; [| lia | lia].
  apply (dyadic_le_scaled m' e' A K); [lia | lia |].
  replace (e' + K) with (e' - e + (e + K)) by lia.
  rewrite Z.pow_add_r, Z.mul_assoc by lia.
  assert (0 < 2 ^ (e + K)) by (apply Z.pow_pos_nonneg; lia).
  nia.
Qed.

(** The truncating shift that follows the rounding. *)
Lemma shr_fexp_exact_le (m e : Z) :
  0 <= m ->
  0 <= shr_m (fst (shr_fexp F64.prec F64.emax m e loc_Exact))
  /\ e <= snd (shr_fexp F64.prec F64.emax m e loc_Exact)
  /\ shr_m (fst (shr_fexp F64.prec F64.emax m e loc_Exact))
     * 2 ^ (snd (shr_fexp F64.prec F64.emax m e loc_Exact) - e) <= m.
Proof.
  intros Hm; unfold shr_fexp, shr; cbn [shr_record_of_loc].
  destruct (fexp F64.prec F64.emax (Zdigits2 m + e) - e) as [| p | p];
    cbn [fst snd shr_m]; rewrite ?Z.sub_diag, ?Z.pow_0_r; try lia.
  destruct (shifted_iter m p Hm 0 _ (shifted_start m)) as (_ & Hq & _).
  rewrite Z.add_0_l in Hq; rewrite Hq.
  replace (e + Zpos p - e) with (Zpos p) by lia.
  assert (0 < 2 ^ Zpos p) by (apply Z.pow_pos_nonneg; lia).
  split; [apply Z.div_pos; lia |].
  split; [lia |].
  rewrite Z.mul_comm; apply Z.mul_div_le; lia.
Qed.

(** The shift to the target exponent followed by rounding to nearest. *)
Lemma shr_fexp_round_le (N : positive) (ex A k : Z) :
  0 <= k -> 0 < A < 2 ^ (53 + k) -> (2 ^ k | A) -> dyadic_le (Zpos N) ex A ->
  let mrs := fst (shr_fexp F64.prec F64.emax (Zpos N) ex loc_Exact) in
  let e' := snd (shr_fexp F64.prec F64.emax (Zpos N) ex loc_Exact) in
  0 <= round_nearest_even (shr_m mrs) (loc_of_shr_record mrs)
  /\ dyadic_le (round_nearest_even (shr_m mrs) (loc_of_shr_record mrs)) e' A.
Proof.
  intros Hk HA Hdiv Hle; unfold shr_fexp, shr; cbn [shr_record_of_loc Zdigits2].
  set (d := Zpos (digits2_pos N)).
  set (E := fexp F64.prec F64.emax (d + ex)).
  destruct (E - ex) as [| p | p] eqn:Hn;
    cbn [fst snd shr_m loc_of_shr_record round_nearest_even]; try (split; [lia | exact Hle]).
  set (K := Z.max 0 (- ex)).
  assert (HE : E = ex + Zpos p) by lia.
  apply (dyadic_le_scaled (Zpos N) ex A K) in Hle; [| lia | lia].
  assert (HPK : 0 < 2 ^ (ex + K)) by (apply Z.pow_pos_nonneg; lia).
  assert (HEk : E <= k).
  { destruct (Z.le_gt_cases E k) as [Hok | Hbad]; [exact Hok | exfalso].
    assert (HEd : E = d + ex - 53).
    { unfold E, fexp, F64.prec, F64.emax, emin in *; lia. }
    pose proof (digits2_pos_lower N) as Hlow; fold d in Hlow.
    assert (Hbig : 2 ^ (53 + k + K) <= 2 ^ (d - 1) * 2 ^ (ex + K)).
    { rewrite <- Z.pow_add_r by lia; apply Z.pow_le_mono_r; lia. }
    assert (Hsmall : A * 2 ^ K < 2 ^ (53 + k + K)).
    { rewrite (Z.pow_add_r 2 (53 + k) K) by lia.
      apply Z.mul_lt_mono_pos_r; [apply Z.pow_pos_nonneg |]; lia. }
    nia. }
  assert (HB : exists B, A * 2 ^ K = B * 2 ^ (E + K)).
  { destruct (Z.le_gt_cases E 0) as [Hneg | Hpos].
    - exists (A * 2 ^ (- E)).
      rewrite <- Z.mul_assoc, <- Z.pow_add_r by lia; do 2 f_equal; lia.
    - destruct Hdiv as [a Ha]; exists (a * 2 ^ (k - E)).
      rewrite Ha, <- !Z.mul_assoc, <- !Z.pow_add_r by lia; do 2 f_equal; lia. }
  destruct HB as [B HB].
  assert (HEpow : 2 ^ (E + K) = 2 ^ Zpos p * 2 ^ (ex + K)).
  { rewrite <- Z.pow_add_r by lia; f_equal; lia. }
  assert (HNB : Zpos N <= B * 2 ^ Zpos p).
  { rewrite HB, HEpow, Z.mul_assoc in Hle.
    apply Z.mul_le_mono_pos_r in Hle; assumption. }
  pose proof (shr_round_le (Zpos N) B p ltac:(lia) HNB) as [Hr0 HrB].
  cbv zeta in Hr0, HrB.
  split; [exact Hr0 |].
  replace (ex + Zpos p) with E by lia.
  apply (dyadic_le_scaled _ E A K); [lia | lia |].
  rewrite HB; apply Z.mul_le_mono_nonneg_r; [apply Z.pow_nonneg; lia | exact HrB].
Qed.

(** Rounding a magnitude below a representable integer [A] gives a finite
    number below [A]: no overflow, no step across [A]. *)
Lemma binary_round_aux_bound (s : bool) (N : positive) (ex A k : Z) :
  0 <= k <= 900 -> 0 < A < 2 ^ (53 + k) -> (2 ^ k | A) -> dyadic_le (Zpos N) ex A ->
  bounded_by A (binary_round_aux F64.prec F64.emax s (Zpos N) ex loc_Exact).
Proof.
  intros Hk HA Hdiv Hle; unfold binary_round_aux.
  pose proof (shr_fexp_round_le N ex A k ltac:(lia) HA Hdiv Hle) as [Hr0 Hr].
  cbv zeta in Hr0, Hr.
  destruct (shr_fexp F64.prec F64.emax (Zpos N) ex loc_Exact) as [mrs e'].
  cbn [fst snd] in Hr0, Hr.
  set (r := round_nearest_even (shr_m mrs) (loc_of_shr_record mrs)) in *.
  pose proof (shr_fexp_exact_le r e' Hr0) as (Hm0 & He & Hmle).
  destruct (shr_fexp F64.prec F64.emax r e' loc_Exact) as [mrs2 e2].
  cbn [fst snd] in Hm0, He, Hmle.
  pose proof (dyadic_le_shift r (shr_m mrs2) e' e2 A Hm0 He Hmle Hr) as Hfin.
  destruct (shr_m mrs2) as [| m | m]; cbn; [exact I | | lia].
  change (F64.emax - F64.prec) with 971.
  destruct (Z.leb_spec e2 971) as [Hok | Hover]; cbn; [exact Hfin |].
  unfold dyadic_le in Hfin.
  destruct (Z.leb_spec 0 e2) as [_ | Hneg]; [| lia].
  assert (2 ^ (53 + k) <= 2 ^ e2) by (apply Z.pow_le_mono_r; lia).
  assert (0 < 2 ^ e2) by (apply Z.pow_pos_nonneg; lia).
  nia.
Qed.


Lemma dyadic_le_mul (m n e f A : Z) :
  0 <= m -> 0 <= n -> dyadic_le m e A -> dyadic_le n f 1 -> dyadic_le (m * n) (e + f) A.
Proof.
  intros Hm Hn HA H1.
  set (K1 := Z.max 0 (- e)); set (K2 := Z.max 0 (- f)).
  apply (dyadic_le_scaled m e A K1) in HA; [| lia | lia].
  apply (dyadic_le_scaled n f 1 K2) in H1; [| lia | lia].
  apply (dyadic_le_scaled (m * n) (e + f) A (K1 + K2)); [lia | lia |].
  replace (e + f + (K1 + K2)) with ((e + K1) + (f + K2)) by lia.
  rewrite (Z.pow_add_r 2 (e + K1) (f + K2)), (Z.pow_add_r 2 K1 K2) by lia.
  assert (0 <= 2 ^ (e + K1)) by (apply Z.pow_nonneg; lia).
  assert (0 <= 2 ^ (f + K2)) by (apply Z.pow_nonneg; lia).
  assert (0 < 2 ^ K1) by (apply Z.pow_pos_nonneg; lia).
  assert (0 < 2 ^ K2) by (apply Z.pow_pos_nonneg; lia).
  assert (0 <= m * 2 ^ (e + K1)) by (apply Z.mul_nonneg_nonneg; lia).
  assert (0 <= n * 2 ^ (f + K2)) by (apply Z.mul_nonneg_nonneg; lia).
  transitivity ((A * 2 ^ K1) * (n * 2 ^ (f + K2))).
  2:{ apply Z.le_trans with ((A * 2 ^ K1) * (1 * 2 ^ K2)); [| apply Z.eq_le_incl; ring].
      apply Z.mul_le_mono_nonneg_l; [lia | exact H1]. }
  apply Z.le_trans with ((m * 2 ^ (e + K1)) * (n * 2 ^ (f + K2)));
    [apply Z.eq_le_incl; ring |].
  apply Z.mul_le_mono_nonneg_r; [lia | exact HA].
Qed.

Lemma dyadic_le_align (m e d A : Z) :
  0 <= d -> dyadic_le m e A -> dyadic_le (m * 2 ^ d) (e - d) A.
Proof.
  intros Hd H.
  set (K := Z.max 0 (- (e - d))).
  apply (dyadic_le_scaled m e A K) in H; [| lia | lia].
  apply (dyadic_le_scaled _ (e - d) A K); [lia | lia |].
  rewrite <- Z.mul_assoc, <- Z.pow_add_r by lia.
  replace (d + (e - d + K)) with (e + K) by lia; exact H.
Qed.

Lemma dyadic_le_weaken (m e A A' : Z) : A <= A' -> dyadic_le m e A -> dyadic_le m e A'.
Proof.
  unfold dyadic_le; intros HA; destruct (0 <=? e); [lia |].
  assert (0 <= 2 ^ (- e)) by (apply Z.pow_nonneg; lia); nia.
Qed.

Lemma bounded_by_weaken (A A' : Z) (x : F64.float) :
  A <= A' -> bounded_by A x -> bounded_by A' x.
Proof.
  destruct x; cbn; auto; apply dyadic_le_weaken.
Qed.

Lemma bounded_by_finite (A : Z) (x : F64.float) : bounded_by A x -> F64.is_finite x = true.
Proof. destruct x; cbn; auto; contradiction. Qed.

Lemma bounded_by_opp (A : Z) (x : F64.float) : bounded_by A x -> bounded_by A (F64.opp x).
Proof. destruct x; cbn; auto. Qed.

Lemma mul_bounded (A k : Z) (x y : F64.float) :
  representable A k -> bounded_by A x -> bounded_by 1 y -> bounded_by A (F64.mul x y).
Proof.
  intros (Hk & HA & Hdiv) Hx Hy.
  destruct x as [sx | sx | | sx mx ex], y as [sy | sy | | sy my ey];
    cbn in Hx, Hy; try contradiction; try exact I.
  unfold F64.mul, SFmul.
  apply binary_round_aux_bound with (k := k); try assumption.
  rewrite Pos2Z.inj_mul; apply dyadic_le_mul; try assumption; lia.
Qed.

Lemma Pos_iter_xO (m d : positive) : Zpos (Pos.iter xO m d) = Zpos m * 2 ^ Zpos d.
Proof.
  induction d as [| d IH] using Pos.peano_ind.
  - cbn; lia.
  - rewrite Pos.iter_succ, Pos2Z.inj_xO, IH, Pos2Z.inj_succ, Z.pow_succ_r by lia; ring.
Qed.

Lemma binary_round_bound (A k : Z) (s : bool) (m : positive) (e : Z) :
  representable A k -> dyadic_le (Zpos m) e A ->
  bounded_by A (binary_round F64.prec F64.emax s m e).
Proof.
  intros (Hk & HA & Hdiv) Hle; unfold binary_round, shl_align.
  set (e' := fexp F64.prec F64.emax (Zpos (digits2_pos m) + e)).
  destruct (e' - e) as [| d | d] eqn:Hd;
    try (apply binary_round_aux_bound with (k := k); assumption).
  apply binary_round_aux_bound with (k := k); try assumption.
  rewrite Pos_iter_xO.
  replace e' with (e - Zpos d) by lia.
  apply dyadic_le_align; [lia | exact Hle].
Qed.

Lemma binary_normalize_bound (A k z e : Z) (s : bool) :
  representable A k -> dyadic_le (Z.abs z) e A ->
  bounded_by A (binary_normalize F64.prec F64.emax z e s).
Proof.
  intros HA Hle; destruct z as [| m | m]; cbn [binary_normalize]; [exact I | |];
    apply binary_round_bound with (k := k); assumption.
Qed.

Lemma round_half_even_le (m k A : Z) :
  0 <= m -> 0 < k -> m <= A * 2 ^ k -> 0 <= F64.round_half_even m k <= A.
Proof.
  intros Hm Hk Hle; unfold F64.round_half_even.
  assert (Hpos : 0 < 2 ^ k) by (apply Z.pow_pos_nonneg; lia).
  assert (Hq : 0 <= m / 2 ^ k) by (apply Z.div_pos; lia).
  assert (HqA : m / 2 ^ k <= A) by (apply Z.div_le_upper_bound; [lia | nia]).
  pose proof (Z.div_mod m (2 ^ k) ltac:(lia)) as Hdm.
  pose proof (Z.mod_pos_bound m (2 ^ k) Hpos) as Hr.
  destruct (Z.eq_dec (m / 2 ^ k) A) as [Heq | Hne].
  - assert (Hz : m mod 2 ^ k = 0) by nia.
    rewrite Hz; cbn [Z.mul]; destruct (Z.compare_spec 0 (2 ^ k)); lia.
  - destruct (2 * (m mod 2 ^ k) ?= 2 ^ k); [destruct (Z.even _) | |]; lia.
Qed.

Lemma rint_bounded (A k : Z) (x : F64.float) :
  representable A k -> bounded_by A x -> bounded_by A (F64.rint x).
Proof.
  intros HA Hx; destruct x as [s | s | | s m e]; cbn in Hx |- *; try assumption.
  unfold dyadic_le in Hx.
  destruct (Z.leb_spec 0 e) as [He | He].
  - cbn; unfold dyadic_le; destruct (Z.leb_spec 0 e); [assumption | lia].
  - unfold F64.integral; apply binary_normalize_bound with (k := k); [exact HA |].
    pose proof (round_half_even_le (Zpos m) (- e) A ltac:(lia) ltac:(lia) Hx).
    unfold dyadic_le; cbn [Z.leb Z.compare]; rewrite Z.pow_0_r.
    destruct s; cbn [F64.signed]; lia.
Qed.

(** A bounded float that fits the target converts to an integer. *)
Lemma cast_bounded (A w : Z) (x : F64.float) :
  0 < w -> 0 <= A <= 2 ^ (8 * w - 1) - 1 -> bounded_by A x ->
  exists z, cast_to_int w x = Ok z /\ - A <= z <= A.
Proof.
  intros Hw HA Hx; destruct x as [s | s | | s m e]; cbn in Hx; try contradiction.
  - exists 0; split; [reflexivity | lia].
  - unfold cast_to_int, dyadic_le in *.
    destruct (Z.leb_spec 0 e) as [He | He].
    + exists (F64.signed s (Zpos m * 2 ^ e)).
      assert (0 <= Zpos m * 2 ^ e) by (apply Z.mul_nonneg_nonneg; [| apply Z.pow_nonneg]; lia).
      assert (Hr : - A <= F64.signed s (Zpos m * 2 ^ e) <= A) by (unfold F64.signed; destruct s; lia).
      split; [| exact Hr].
      destruct (Z.leb_spec (- 2 ^ (8 * w - 1)) (F64.signed s (Zpos m * 2 ^ e)));
        destruct (Z.leb_spec (F64.signed s (Zpos m * 2 ^ e)) (2 ^ (8 * w - 1) - 1));
        cbn; try reflexivity; lia.
    + assert (Hpos : 0 < 2 ^ (- e)) by (apply Z.pow_pos_nonneg; lia).
      assert (Hq : 0 <= Zpos m / 2 ^ (- e) <= A).
      { split; [apply Z.div_pos; lia | apply Z.div_le_upper_bound; [lia | nia]]. }
      exists (F64.signed s (Zpos m / 2 ^ (- e))).
      assert (Hr : - A <= F64.signed s (Zpos m / 2 ^ (- e)) <= A) by (unfold F64.signed; destruct s; lia).
      split; [| exact Hr].
      destruct (Z.leb_spec (- 2 ^ (8 * w - 1)) (F64.signed s (Zpos m / 2 ^ (- e))));
        destruct (Z.leb_spec (F64.signed s (Zpos m / 2 ^ (- e))) (2 ^ (8 * w - 1) - 1));
        cbn; try reflexivity; lia.
Qed.


(** ** The steps of the constructors *)

Lemma signed_integer_dtype_inv (dt : dtype) :
  signed_integer_dtype dt = true ->
  kind dt = "i"%char
  /\ (itemsize dt = 1 \/ itemsize dt = 2 \/ itemsize dt = 4 \/ itemsize dt = 8).
Proof.
  unfold signed_integer_dtype; intros H.
  apply andb_true_iff in H as [Hk H]; apply Ascii.eqb_eq in Hk.
  split; [exact Hk |].
  apply orb_true_iff in H as [H | H]; apply andb_true_iff in H as [H _].
  - apply Z.eqb_eq in H; auto.
  - apply orb_true_iff in H as [H | H]; [apply orb_true_iff in H as [H | H] |];
      apply Z.eqb_eq in H; auto.
Qed.

Lemma check_arguments_ok (dt : dtype) (volume : F64.float) :
  kind dt = "i"%char ->
  F64.leb F64.zero volume && F64.leb volume F64.one = true ->
  check_arguments dt volume = Ok tt.
Proof.
  intros Hk Hv; unfold check_arguments.
  rewrite Hk, Hv; reflexivity.
Qed.

Lemma amplitude_of_ok (dt : dtype) (volume : F64.float) :
  signed_integer_dtype dt = true -> amplitude_of dt volume = Ok (amplitude dt volume).
Proof.
  intros H; apply signed_integer_dtype_inv in H as [_ Hw].
  unfold amplitude_of, amplitude, peak, py_float_of_int.
  destruct Hw as [-> | [-> | [-> | ->]]]; reflexivity.
Qed.

Lemma power_representable (k : Z) : 0 <= k <= 900 -> representable (2 ^ k) k.
Proof.
  intros Hk; split; [exact Hk | split; [| exists 1; ring]].
  split; [apply Z.pow_pos_nonneg; lia | apply Z.pow_lt_mono_r; lia].
Qed.

Lemma of_Z_bounded (A k z : Z) :
  representable A k -> Z.abs z <= A -> bounded_by A (F64.of_Z z).
Proof.
  intros HA Hz; apply binary_normalize_bound with (k := k); [exact HA |].
  unfold dyadic_le; cbn [Z.leb Z.compare]; rewrite Z.pow_0_r; lia.
Qed.

Lemma py_float_of_int_ok (z : Z) :
  Z.abs z <= 2 ^ 900 -> py_float_of_int z = Ok (F64.of_Z z).
Proof.
  intros Hz; unfold py_float_of_int.
  rewrite (bounded_by_finite (2 ^ 900) (F64.of_Z z)); [reflexivity |].
  apply of_Z_bounded with (k := 900); [apply power_representable; lia | exact Hz].
Qed.

Lemma harmonic_rounded_run (np_sin : F64.float -> F64.float) (frequency : Z)
    (dt : dtype) (framerate : Z) (duration stop : pynum) (volume : F64.float)
    (arr : numarray) :
  signed_integer_dtype dt = true ->
  F64.leb F64.zero volume && F64.leb volume F64.one = true ->
  Z.abs frequency <= 2 ^ 900 ->
  py_mul_int duration framerate = Ok stop ->
  np_arange stop = Ok arr ->
  harmonic_rounded np_sin frequency dt framerate duration volume
  = Ok (map F64.rint
          (map (harmonic_value np_sin (amplitude dt volume)
                  (F64.mul F64.tau (F64.of_Z frequency)) framerate)
               (as_float64 arr))).
Proof.
  intros Hdt Hv Hf Hstop Harr; unfold harmonic_rounded.
  rewrite check_arguments_ok by (try apply signed_integer_dtype_inv; assumption).
  cbn [bind]; rewrite amplitude_of_ok by assumption.
  cbn [bind]; rewrite Hstop; cbn [bind]; rewrite Harr; cbn [bind].
  rewrite py_float_of_int_ok by assumption; reflexivity.
Qed.

(** ** The harmonic generator *)

(** C1.  For a signed integer dtype of [W] bytes, a volume in [0, 1] and a
    sample count the run time can allocate, the harmonic generator returns
    a buffer whose element [n], for every index [n] below its length, is
    [round (amplitude * sin (tau * frequency * n / framerate))] with
    [amplitude = (2^(8W-1) - 1) * volume], and the integer stored for it is
    the C conversion of that number to the target type. *)
Theorem harmonic_sample_formula (host : endian) (np_sin : F64.float -> F64.float)
    (frequency : Z) (dt : dtype) (framerate : Z) (duration stop : pynum)
    (volume : F64.float) (arr : numarray) :
  signed_integer_dtype dt = true ->
  F64.leb F64.zero volume && F64.leb volume F64.one = true ->
  Z.abs frequency <= 2 ^ 900 ->
  py_mul_int duration framerate = Ok stop ->
  np_arange stop = Ok arr ->
  let amplitude := F64.mul (F64.of_Z (2 ^ (itemsize dt * 8 - 1) - 1)) volume in
  let sample (n : Z) :=
    F64.rint
      (F64.mul amplitude
         (np_sin (F64.div (F64.mul (F64.mul F64.tau (F64.of_Z frequency)) (F64.of_Z n))
                          (F64.of_Z framerate)))) in
  exists xs,
    harmonic_rounded np_sin frequency dt framerate duration volume = Ok xs
    /\ List.length xs = numarray_size arr
    /\ forall n, (n < List.length xs)%nat ->
         nth_error xs n = Some (sample (Z.of_nat n))
         /\ forall a, astype host xs dt = Ok a ->
              exists z, cast_to_int (itemsize dt) (sample (Z.of_nat n)) = Ok z
                        /\ nth_error (values host a) n = Some z.
Proof.
  intros Hdt Hv Hf Hstop Harr amp sample.
  pose proof (harmonic_rounded_run np_sin _ _ _ _ _ _ _ Hdt Hv Hf Hstop Harr) as Hrun.
  destruct (np_arange_floats _ _ Harr) as (len & _ & Hfl & Hsize).
  rewrite Hfl in Hrun.
  eexists; split; [exact Hrun |].
  rewrite !length_map, iota_length.
  split; [symmetry; exact Hsize |].
  intros n Hn.
  assert (Hnth : nth_error
                   (map F64.rint
                      (map (harmonic_value np_sin (amplitude dt volume)
                              (F64.mul F64.tau (F64.of_Z frequency)) framerate)
                         (map F64.of_Z (iota len)))) n
                 = Some (sample (Z.of_nat n))).
  { rewrite !nth_error_map, iota_nth by exact Hn; reflexivity. }
  split; [exact Hnth |].
  intros a Ha.
  apply signed_integer_dtype_inv in Hdt as [_ Hw].
  apply astype_values in Ha as (_ & _ & Hall); [| lia].
  destruct (Forall2_nth_error _ _ _ Hall n _ Hnth) as (z & Hz & Hcast).
  exists z; split; assumption.
Qed.

(** The specification's example: one cycle of a 1 Hz tone at 8 samples a
    second, full volume, in [int8]. *)
Lemma harmonic_sample_formula_witness :
  exists xs,
    harmonic_rounded Libm.sin 1 int8 8 (PyFloat F64.one) F64.one = Ok xs
    /\ List.length xs = 8%nat
    /\ forall n, (n < List.length xs)%nat ->
         nth_error xs n
         = Some (F64.rint
                   (F64.mul (F64.mul (F64.of_Z (2 ^ (1 * 8 - 1) - 1)) F64.one)
                      (Libm.sin
                         (F64.div
                            (F64.mul (F64.mul F64.tau (F64.of_Z 1)) (F64.of_Z (Z.of_nat n)))
                            (F64.of_Z 8)))))
         /\ forall a, astype Little xs int8 = Ok a ->
              exists z,
                cast_to_int 1
                  (F64.rint
                     (F64.mul (F64.mul (F64.of_Z (2 ^ (1 * 8 - 1) - 1)) F64.one)
                        (Libm.sin
                           (F64.div
                              (F64.mul (F64.mul F64.tau (F64.of_Z 1))
                                 (F64.of_Z (Z.of_nat n)))
                              (F64.of_Z 8))))) = Ok z
                /\ nth_error (values Little a) n = Some z.
Proof.
  apply (harmonic_sample_formula Little Libm.sin 1 int8 8 (PyFloat F64.one)
           (PyFloat (F64.of_Z 8)) F64.one
           (FloatArray (map F64.of_Z (iota 8)))).
  - reflexivity.
  - reflexivity.
  - apply Z.leb_le; reflexivity.
  - reflexivity.
  - reflexivity.
Defined.

(** The eight samples of that example. *)
Example harmonic_example :
  match SimpleHarmonicWave Little Libm.sin 1 int8 8 (PyFloat F64.one) F64.one with
  | Ok w => values Little (samples w) = [0; 90; 127; 90; 0; -90; -127; -90]
  | _ => False
  end.
Proof. vm_compute; reflexivity. Qed.

(** A whole number rounds to itself, and so do its floor and ceiling. *)
Lemma rintZ_whole (x : F64.float) :
  F64.floorZ x = F64.ceilZ x -> F64.rintZ x = F64.ceilZ x.
Proof.
  destruct x as [s | s | | s m e]; cbn [F64.floorZ F64.ceilZ F64.rintZ]; try reflexivity.
  destruct (Z.leb_spec 0 e) as [He | He]; [reflexivity |].
  intros [= H]; f_equal.
  set (d := 2 ^ (- e)) in *.
  assert (Hd : 0 < d) by (apply Z.pow_pos_nonneg; lia).
  pose proof (Z.mod_pos_bound (Zpos m) d Hd) as Hr.
  assert (Hz : Zpos m mod d = 0).
  { destruct (Z.eq_dec (Zpos m mod d) 0) as [Hz | Hnz]; [exact Hz | exfalso].
    destruct s; cbn [F64.signed negb] in H.
    - rewrite Z.div_opp_l_nz in H by lia; lia.
    - rewrite Z.div_opp_l_nz in H by lia; lia. }
  unfold F64.round_half_even; fold d; rewrite Hz; cbn [Z.mul].
  destruct (Z.compare_spec 0 d) as [| _ |]; try lia.
  destruct s; cbn [F64.signed negb]; [reflexivity |].
  rewrite Z.div_opp_l_z by lia; lia.
Qed.

(** C3, as amended.  The harmonic generator produces as many samples as
    [np.arange(duration * framerate)] has elements: the product itself for
    an integer product, its ceiling for a float one, and none when that is
    negative.  The count is [round(duration * framerate)] whenever the
    product is a whole number. *)
Theorem harmonic_sample_count (np_sin : F64.float -> F64.float)
    (frequency : Z) (dt : dtype) (framerate : Z) (duration stop : pynum)
    (volume : F64.float) (arr : numarray) :
  signed_integer_dtype dt = true ->
  F64.leb F64.zero volume && F64.leb volume F64.one = true ->
  Z.abs frequency <= 2 ^ 900 ->
  py_mul_int duration framerate = Ok stop ->
  np_arange stop = Ok arr ->
  exists xs len,
    harmonic_rounded np_sin frequency dt framerate duration volume = Ok xs
    /\ arange_length stop = Some len
    /\ Z.of_nat (List.length xs) = Z.max 0 len
    /\ (whole stop -> 0 <= len -> py_round stop = Some (Z.of_nat (List.length xs))).
Proof.
  intros Hdt Hv Hf Hstop Harr.
  pose proof (harmonic_rounded_run np_sin _ _ _ _ _ _ _ Hdt Hv Hf Hstop Harr) as Hrun.
  destruct (np_arange_floats _ _ Harr) as (len & Hlen & Hfl & _).
  rewrite Hfl in Hrun.
  eexists; exists len; split; [exact Hrun |].
  rewrite !length_map, iota_length.
  split; [exact Hlen |].
  split; [lia |].
  intros Hwhole Hpos; rewrite Z2Nat.id by exact Hpos.
  destruct stop as [n | x]; cbn [arange_length py_round whole] in *.
  - exact Hlen.
  - rewrite <- Hlen; apply rintZ_whole, Hwhole.
Qed.

(** A quarter of a second at 44100 frames a second: 11025 samples, which
    is also [round(0.25 * 44100)]. *)
Lemma harmonic_sample_count_witness :
  exists xs len,
    harmonic_rounded Libm.sin 440 int8 44100 (PyFloat (F64.of_ratio 1 4)) F64.half = Ok xs
    /\ arange_length (PyFloat (F64.of_Z 11025)) = Some len
    /\ Z.of_nat (List.length xs) = Z.max 0 len
    /\ (whole (PyFloat (F64.of_Z 11025)) -> 0 <= len ->
        py_round (PyFloat (F64.of_Z 11025)) = Some (Z.of_nat (List.length xs))).
Proof.
  apply (harmonic_sample_count Libm.sin 440 int8 44100 (PyFloat (F64.of_ratio 1 4))
           (PyFloat (F64.of_Z 11025)) F64.half
           (FloatArray (map F64.of_Z (iota 11025)))).
  - reflexivity.
  - reflexivity.
  - apply Z.leb_le; reflexivity.
  - reflexivity.
  - reflexivity.
Defined.

(** C3, counterexample.  A quarter of a second at 9 frames a second:
    [0.25 * 9 = 2.25], [np.arange(2.25)] has the three elements 0, 1, 2,
    and [round(2.25) = 2]. *)
Lemma harmonic_count_is_not_round :
  exists xs stop,
    harmonic_rounded Libm.sin 1 int8 9 (PyFloat (F64.of_ratio 1 4)) F64.one = Ok xs
    /\ py_mul_int (PyFloat (F64.of_ratio 1 4)) 9 = Ok stop
    /\ py_round stop = Some 2
    /\ List.length xs = 3%nat.
Proof.
  eexists; eexists; split; [vm_compute; reflexivity |].
  split; [vm_compute; reflexivity |].
  split; reflexivity.
Qed.

(** ** The square generator *)

Lemma binary_round_aux_opp (s : bool) (m e : Z) (l : location) :
  SFopp (binary_round_aux F64.prec F64.emax s m e l)
  = binary_round_aux F64.prec F64.emax (negb s) m e l.
Proof.
  unfold binary_round_aux.
  destruct (shr_fexp F64.prec F64.emax m e l) as [mrs e'].
  destruct (shr_fexp F64.prec F64.emax _ e' loc_Exact) as [mrs2 e2].
  destruct (shr_m mrs2); try reflexivity.
  destruct (e2 <=? F64.emax - F64.prec); reflexivity.
Qed.

Lemma integral_opp (s : bool) (r : Z) :
  0 <= r ->
  F64.opp (F64.integral s (F64.signed s r)) = F64.integral (negb s) (F64.signed (negb s) r).
Proof.
  intros Hr; unfold F64.integral, F64.opp.
  destruct r as [| r | r]; [destruct s; reflexivity | | lia].
  destruct s; cbn [F64.signed negb Z.opp binary_normalize];
    unfold binary_round;
    destruct (shl_align r 0 _) as [mz ez];
    apply binary_round_aux_opp.
Qed.

(** Rounding commutes with negation. *)
Lemma rint_opp (x : F64.float) : F64.rint (F64.opp x) = F64.opp (F64.rint x).
Proof.
  destruct x as [s | s | | s m e]; try reflexivity.
  cbn [F64.opp SFopp F64.rint F64.rintZ].
  destruct (Z.leb_spec 0 e) as [He | He]; [reflexivity |].
  symmetry; apply integral_opp.
  unfold F64.round_half_even.
  assert (0 < 2 ^ (- e)) by (apply Z.pow_pos_nonneg; lia).
  assert (0 <= Zpos m / 2 ^ (- e)) by (apply Z.div_pos; lia).
  destruct (_ ?= _); [destruct (Z.even _) | |]; lia.
Qed.

Lemma cast_to_int_opp (w : Z) (y : F64.float) (p z : Z) :
  cast_to_int w y = Ok p -> cast_to_int w (F64.opp y) = Ok z -> z = - p.
Proof.
  destruct y as [s | s | | s m e]; cbn [F64.opp SFopp cast_to_int]; try discriminate.
  - intros [= <-] [= <-]; reflexivity.
  - destruct (0 <=? e).
    + set (t := Zpos m * 2 ^ e).
      destruct (_ && _); [| discriminate].
      destruct (_ && _); [| discriminate].
      intros [= <-] [= <-]; destruct s; cbn [F64.signed negb]; lia.
    + set (t := Zpos m / 2 ^ (- e)).
      destruct (_ && _); [| discriminate].
      destruct (_ && _); [| discriminate].
      intros [= <-] [= <-]; destruct s; cbn [F64.signed negb]; lia.
Qed.

(** What the square generator returns is a list of rounded [+amplitude]
    and [-amplitude]. *)
Lemma square_rounded_inv (frequency : Z) (dt : dtype) (framerate : Z)
    (duration : pynum) (volume : F64.float) (xs : list F64.float) :
  signed_integer_dtype dt = true ->
  square_rounded frequency dt framerate duration volume = Ok xs ->
  exists even : list bool,
    xs = map F64.rint
           (map (fun c : bool => if c then amplitude dt volume
                                 else F64.opp (amplitude dt volume)) even).
Proof.
  intros Hdt H; unfold square_rounded in H.
  apply bind_Ok in H as (_ & _ & H).
  rewrite amplitude_of_ok in H by exact Hdt; cbn [bind] in H.
  apply bind_Ok in H as (stop & _ & H).
  apply bind_Ok in H as (arr & _ & H).
  apply bind_Ok in H as (hp & _ & H).
  apply bind_Ok in H as (even & _ & H).
  injection H as <-; exists even; reflexivity.
Qed.

(** C4.  Every element of the buffer a square-wave construction computes
    is the rounded amplitude or its negation, and so is every integer of
    the array cast to the target type: the buffer takes the two values
    [p] and [-p], where [p] is the converted rounded amplitude. *)
Theorem square_two_values (host : endian) (frequency : Z) (dt : dtype)
    (framerate : Z) (duration : pynum) (volume : F64.float) (xs : list F64.float) :
  signed_integer_dtype dt = true ->
  square_rounded frequency dt framerate duration volume = Ok xs ->
  let rounded := F64.rint (F64.mul (F64.of_Z (2 ^ (itemsize dt * 8 - 1) - 1)) volume) in
  Forall (fun x => x = rounded \/ x = F64.opp rounded) xs
  /\ forall a, astype host xs dt = Ok a ->
       Forall (fun z => cast_to_int (itemsize dt) rounded = Ok z
                        \/ cast_to_int (itemsize dt) (F64.opp rounded) = Ok z)
              (values host a)
       /\ forall p, cast_to_int (itemsize dt) rounded = Ok p ->
            Forall (fun z => z = p \/ z = - p) (values host a).
Proof.
  intros Hdt H rounded.
  destruct (square_rounded_inv _ _ _ _ _ _ Hdt H) as (even & ->).
  assert (Hxs : Forall (fun x => x = rounded \/ x = F64.opp rounded)
                  (map F64.rint
                     (map (fun c : bool => if c then amplitude dt volume
                                           else F64.opp (amplitude dt volume)) even))).
  { apply Forall_forall; intros x Hx.
    apply in_map_iff in Hx as (y & <- & Hy).
    apply in_map_iff in Hy as (c & <- & _).
    destruct c; [left; reflexivity | right; apply rint_opp]. }
  split; [exact Hxs |].
  intros a Ha.
  apply signed_integer_dtype_inv in Hdt as [_ Hw].
  apply astype_values in Ha as (_ & _ & Hall); [| lia].
  assert (Hzs : Forall (fun z => cast_to_int (itemsize dt) rounded = Ok z
                                 \/ cast_to_int (itemsize dt) (F64.opp rounded) = Ok z)
                  (values host a)).
  { clear H; induction Hall as [| x z l l' Hxz _ IH]; [constructor |].
    inversion Hxs as [| ? ? Hx Hrest]; subst.
    constructor; [| apply IH; exact Hrest].
    destruct Hx as [-> | ->]; [left | right]; exact Hxz. }
  split; [exact Hzs |].
  intros p Hp; eapply Forall_impl; [| exact Hzs].
  intros z [Hz | Hz]; [left | right].
  - rewrite Hp in Hz; injection Hz as <-; reflexivity.
  - apply cast_to_int_opp with (w := itemsize dt) (y := rounded); assumption.
Qed.

(** A 1 Hz square wave at 8 samples a second, half volume, in [int16]:
    four samples at 16384 and four at -16384. *)
Lemma square_two_values_witness :
  (let rounded := F64.rint (F64.mul (F64.of_Z (2 ^ (2 * 8 - 1) - 1)) F64.half) in
   Forall (fun x => x = rounded \/ x = F64.opp rounded)
     (map F64.of_Z [16384; 16384; 16384; 16384; -16384; -16384; -16384; -16384])
   /\ forall a,
        astype Little
          (map F64.of_Z [16384; 16384; 16384; 16384; -16384; -16384; -16384; -16384])
          int16 = Ok a ->
        Forall (fun z => cast_to_int 2 rounded = Ok z
                         \/ cast_to_int 2 (F64.opp rounded) = Ok z)
               (values Little a)
        /\ forall p, cast_to_int 2 rounded = Ok p ->
             Forall (fun z => z = p \/ z = - p) (values Little a))
  /\ cast_to_int 2 (F64.rint (F64.mul (F64.of_Z (2 ^ (2 * 8 - 1) - 1)) F64.half))
     = Ok 16384.
Proof.
  split; [| reflexivity].
  apply (square_two_values Little 1 int16 8 (PyFloat F64.one) F64.half).
  - reflexivity.
  - reflexivity.
Defined.

(** *** Fractions *)

Lemma Fraction_normalized_spec (n d : Z) :
  d <> 0 ->
  0 < denominator (Fraction_normalized n d)
  /\ numerator (Fraction_normalized n d) * d = n * denominator (Fraction_normalized n d)
  /\ Z.gcd (numerator (Fraction_normalized n d)) (denominator (Fraction_normalized n d)) = 1.
Proof.
  intros Hd; unfold Fraction_normalized; cbn [numerator denominator].
  set (g := Z.gcd n d).
  assert (Hg : 0 < g).
  { pose proof (Z.gcd_nonneg n d) as Hnn.
    destruct (Z.eq_dec g 0) as [Hz | Hnz]; [| fold g in Hnn; lia].
    apply Z.gcd_eq_0_r in Hz; contradiction. }
  destruct (Z.gcd_divide_l n d) as [n' Hn'], (Z.gcd_divide_r n d) as [d' Hd'].
  fold g in Hn', Hd'.
  assert (Hcop : Z.gcd n' d' = 1).
  { pose proof (Z.gcd_mul_mono_r_nonneg n' d' g ltac:(lia)) as Hmul.
    rewrite <- Hn', <- Hd' in Hmul; fold g in Hmul.
    pose proof (Z.gcd_nonneg n' d'); nia. }
  destruct (Z.ltb_spec d 0) as [Hneg | Hpos].
  - assert (Hnq : n / - g = - n').
    { symmetry; apply Z.div_unique_exact; [lia | rewrite Hn' at 1; ring]. }
    assert (Hdq : d / - g = - d').
    { symmetry; apply Z.div_unique_exact; [lia | rewrite Hd' at 1; ring]. }
    rewrite Hnq, Hdq.
    split; [nia |]. split; [rewrite Hn', Hd' at 1; ring |].
    rewrite Z.gcd_opp_l, Z.gcd_opp_r; exact Hcop.
  - assert (Hnq : n / g = n').
    { symmetry; apply Z.div_unique_exact; [lia | rewrite Hn' at 1; ring]. }
    assert (Hdq : d / g = d').
    { symmetry; apply Z.div_unique_exact; [lia | rewrite Hd' at 1; ring]. }
    rewrite Hnq, Hdq.
    split; [nia |]. split; [rewrite Hn', Hd' at 1; ring | exact Hcop].
Qed.

(** [samples_per_half_period] is the exact rational
    [framerate / (2 * frequency)]. *)
Lemma half_period_exact (frequency framerate : Z) :
  frequency <> 0 ->
  exists hp,
    half_period frequency framerate = Ok hp
    /\ 0 < denominator hp
    /\ numerator hp * (2 * frequency) = framerate * denominator hp.
Proof.
  intros Hf; unfold half_period, Fraction_new, Fraction_div_int, Fraction_mul_int, Fraction_new.
  destruct (Z.eqb_spec frequency 0) as [| _]; [contradiction |]; cbn [bind].
  destruct (Fraction_normalized_spec 1 frequency Hf) as (Hd1 & Hv1 & _).
  set (p := Fraction_normalized 1 frequency) in *.
  assert (Hd1' : denominator p * 1 <> 0) by lia.
  destruct (Fraction_normalized_spec (numerator p * framerate) (denominator p * 1) Hd1')
    as (Hd2 & Hv2 & _).
  set (q := Fraction_normalized (numerator p * framerate) (denominator p * 1)) in *.
  destruct (Z.eqb_spec (denominator q * 2) 0) as [| _]; [lia |].
  assert (Hd2' : denominator q * 2 <> 0) by lia.
  destruct (Fraction_normalized_spec (numerator q * 1) (denominator q * 2) Hd2')
    as (Hd3 & Hv3 & _).
  eexists; split; [reflexivity |].
  set (h := Fraction_normalized (numerator q * 1) (denominator q * 2)) in *.
  split; [exact Hd3 |].
  assert (H2 : numerator q * denominator p = numerator p * framerate * denominator q) by lia.
  assert (H3 : numerator h * (denominator q * 2) = numerator q * denominator h) by lia.
  assert (Hpq : 0 < denominator p * denominator q) by nia.
  apply (Z.mul_reg_r _ _ (denominator p * denominator q)); [lia |].
  assert (E1 : numerator h * (2 * frequency) * (denominator p * denominator q)
               = numerator q * denominator h * frequency * denominator p)
    by (rewrite <- H3; ring).
  assert (E2 : numerator q * denominator h * frequency * denominator p
               = numerator p * framerate * denominator q * denominator h * frequency)
    by (rewrite <- H2; ring).
  assert (E3 : numerator p * framerate * denominator q * denominator h * frequency
               = framerate * denominator h * (denominator p * denominator q)).
  { replace (numerator p * framerate * denominator q * denominator h * frequency)
      with (numerator p * frequency * (framerate * denominator q * denominator h)) by ring.
    rewrite Hv1; ring. }
  congruence.
Qed.

(** *** Running the generator *)

Lemma even_half_period_run (arr : numarray) (hp : Fraction) :
  divides arr hp -> even_half_period arr hp = Ok (parities arr hp).
Proof.
  destruct arr as [ns | xs]; cbn [divides even_half_period parities]; intros H;
    apply mapM_total; intros a _.
  - unfold int_floordiv_Fraction.
    destruct (Z.eqb_spec (1 * numerator hp) 0) as [Hz | _]; [lia |].
    cbn [bind]; rewrite Z.mul_1_l, Zmod_even.
    destruct (Z.even _); reflexivity.
  - unfold float_floordiv_Fraction, F64.floordiv; rewrite H; reflexivity.
Qed.

Lemma square_rounded_run (frequency : Z) (dt : dtype) (framerate : Z)
    (duration stop : pynum) (volume : F64.float) (arr : numarray) (hp : Fraction) :
  signed_integer_dtype dt = true ->
  F64.leb F64.zero volume && F64.leb volume F64.one = true ->
  py_mul_int duration framerate = Ok stop ->
  np_arange stop = Ok arr ->
  half_period frequency framerate = Ok hp ->
  divides arr hp ->
  square_rounded frequency dt framerate duration volume
  = Ok (map F64.rint
          (map (fun c : bool => if c then amplitude dt volume
                                else F64.opp (amplitude dt volume))
               (parities arr hp))).
Proof.
  intros Hdt Hv Hstop Harr Hhp Hdiv; unfold square_rounded.
  rewrite check_arguments_ok by (try apply signed_integer_dtype_inv; assumption).
  cbn [bind]; rewrite amplitude_of_ok by assumption.
  cbn [bind]; rewrite Hstop; cbn [bind]; rewrite Harr; cbn [bind].
  rewrite Hhp; cbn [bind]; rewrite even_half_period_run by assumption.
  reflexivity.
Qed.

(** With an integer duration the generator follows the specification's
    formula at every index: the floor division is exact. *)
Lemma square_exact_for_int_duration (frequency : Z) (dt : dtype) (framerate d : Z)
    (volume : F64.float) :
  signed_integer_dtype dt = true ->
  F64.leb F64.zero volume && F64.leb volume F64.one = true ->
  0 < frequency -> 0 < framerate ->
  exists hp xs,
    half_period frequency framerate = Ok hp
    /\ numerator hp * (2 * frequency) = framerate * denominator hp
    /\ square_rounded frequency dt framerate (PyInt d) volume = Ok xs
    /\ List.length xs = Z.to_nat (d * framerate)
    /\ forall n, (n < List.length xs)%nat ->
         nth_error xs n = Some (square_sample_spec (amplitude dt volume) hp (Z.of_nat n)).
Proof.
  intros Hdt Hv Hf Hr.
  destruct (half_period_exact frequency framerate ltac:(lia)) as (hp & Hhp & Hden & Hval).
  assert (Hnum : numerator hp <> 0) by nia.
  exists hp; eexists; split; [exact Hhp | split; [exact Hval |]].
  split; [apply (square_rounded_run _ _ _ _ (PyInt (d * framerate)) _
                   (IntArray (iota (d * framerate))) hp); auto |].
  cbn [parities]; rewrite !length_map, iota_length.
  split; [reflexivity |].
  intros n Hn; rewrite !nth_error_map, iota_nth by exact Hn.
  cbn [option_map]; unfold square_sample_spec; reflexivity.
Qed.

(** C2, at the failing input: the program's own call
    [SquareWave(frequency=440, dtype=np.int8, framerate=44100, duration=1.0,
    volume=0.5)].  The half period is the exact fraction 2205/44, and
    [floor (2205 / (2205/44)) = 44] is even, so the specification puts
    [round(+63.5) = 64] at index 2205; the generator, dividing the float
    2205.0 by [float(2205/44)], finds 43 and stores -64. *)
Theorem square_main_sample_2205 :
  half_period 440 44100 = Ok {| numerator := 2205; denominator := 44 |}
  /\ (2205 * 44) / 2205 = 44
  /\ square_sample_spec (amplitude int8 F64.half)
       {| numerator := 2205; denominator := 44 |} 2205 = F64.of_Z 64
  /\ F64.floordiv (F64.of_Z 2205) (Fraction_float {| numerator := 2205; denominator := 44 |})
     = Ok (F64.of_Z 43)
  /\ exists xs,
       square_rounded 440 int8 44100 (PyFloat F64.one) F64.half = Ok xs
       /\ List.length xs = Z.to_nat 44100
       /\ nth_error xs 2205 = Some (F64.of_Z (- 64)).
Proof.
  split; [reflexivity |].
  split; [reflexivity |].
  split; [vm_compute; reflexivity |].
  split; [vm_compute; reflexivity |].
  eexists; split.
  - apply (square_rounded_run 440 int8 44100 (PyFloat F64.one) (PyFloat (F64.of_Z 44100))
             F64.half (FloatArray (map F64.of_Z (iota 44100)))
             {| numerator := 2205; denominator := 44 |}); reflexivity.
  - cbn [parities]; rewrite !length_map, iota_length.
    split; [reflexivity |].
    rewrite !nth_error_map, iota_nth by (apply Nat2Z.inj_lt; reflexivity).
    vm_compute; reflexivity.
Qed.

(** ** Volumes, amplitudes and the range of the samples *)

(** Closed comparisons of integers, by evaluation. *)
Ltac zdecide :=
  match goal with
  | |- _ /\ _ => split; zdecide
  | |- (_ <= _)%Z => apply Z.leb_le; vm_compute; reflexivity
  | |- (_ < _)%Z => apply Z.ltb_lt; vm_compute; reflexivity
  end.

Lemma digits2_pos_upper (p : positive) : Zpos p < 2 ^ Zpos (digits2_pos p).
Proof.
  induction p as [p IH | p IH |]; simpl digits2_pos.
  - rewrite Pos2Z.inj_succ, Z.pow_succ_r by lia; lia.
  - rewrite Pos2Z.inj_succ, Z.pow_succ_r by lia; lia.
  - zdecide.
Qed.

(** A well-formed binary64 mantissa has at most 53 bits. *)
Lemma valid_mantissa (s : bool) (m : positive) (e : Z) :
  valid_binary F64.prec F64.emax (S754_finite s m e) = true -> Zpos m < 2 ^ 53.
Proof.
  cbn [valid_binary]; unfold bounded, canonical_mantissa, fexp, emin, F64.prec, F64.emax.
  intros H; apply andb_true_iff in H as [H _]; apply Z.eqb_eq in H.
  pose proof (digits2_pos_upper m) as Hup.
  apply Z.lt_le_trans with (1 := Hup), Z.pow_le_mono_r; lia.
Qed.

Lemma one_eq : F64.one = S754_finite false 4503599627370496 (-52).
Proof. reflexivity. Qed.

(** What the assertion [0.0 <= volume <= 1.0] says of a well-formed
    volume, and what [volume < 1.0] adds. *)
Lemma unit_interval (v : F64.float) :
  valid_binary F64.prec F64.emax v = true ->
  F64.leb F64.zero v && F64.leb v F64.one = true ->
  bounded_by 1 v.
Proof.
  intros Hvalid H; apply andb_true_iff in H as [H0 H1].
  destruct v as [s | s | | s m e]; cbn [bounded_by]; try exact I.
  - destruct s; discriminate.
  - discriminate.
  - pose proof (valid_mantissa s m e Hvalid) as Hm.
    destruct s; [discriminate |].
    rewrite one_eq in H1; unfold F64.leb, SFleb, SFcompare in H1.
    unfold dyadic_le.
    destruct (Z.compare_spec e (-52)) as [-> | Hlt | Hgt]; [| | discriminate].
    + cbn [Z.leb Z.compare Z.opp].
      destruct (Pos.compare_cont Eq m 4503599627370496) eqn:Hc; [| | discriminate].
      * apply Pos.compare_eq in Hc; subst m; zdecide.
      * apply (Pos2Z.pos_lt_pos m 4503599627370496) in Hc.
        assert (Hp : 1 * 2 ^ 52 = 4503599627370496) by (vm_compute; reflexivity).
        rewrite Hp; lia.
    + destruct (Z.leb_spec 0 e) as [| _]; [lia |].
      assert (2 ^ 53 <= 2 ^ (- e)) by (apply Z.pow_le_mono_r; lia); lia.
Qed.

Lemma below_one (v : F64.float) :
  valid_binary F64.prec F64.emax v = true ->
  F64.leb F64.zero v = true -> F64.ltb v F64.one = true ->
  match v with
  | S754_zero _ => True
  | S754_finite _ m e => e <= -53 /\ Zpos m < 2 ^ 53
  | _ => False
  end.
Proof.
  intros Hvalid H0 H1.
  destruct v as [s | s | | s m e]; try exact I; try (destruct s; discriminate); try discriminate.
  pose proof (valid_mantissa s m e Hvalid) as Hm.
  split; [| exact Hm].
  destruct s; [discriminate |].
  rewrite one_eq in H1; unfold F64.ltb, SFltb, SFcompare in H1.
  destruct (Z.compare_spec e (-52)) as [-> | Hlt | Hgt]; [| lia | discriminate].
  exfalso.
  cbn [valid_binary] in Hvalid; unfold bounded, canonical_mantissa, fexp, emin,
    F64.prec, F64.emax in Hvalid.
  apply andb_true_iff in Hvalid as [Hc _]; apply Z.eqb_eq in Hc.
  assert (Hd : Zpos (digits2_pos m) = 53) by lia.
  pose proof (digits2_pos_lower m) as Hlow; rewrite Hd in Hlow.
  destruct (Pos.compare_cont Eq m 4503599627370496) eqn:Hcmp; try discriminate.
  apply (Pos2Z.pos_lt_pos m 4503599627370496) in Hcmp.
  assert (Hp : 2 ^ (53 - 1) = 4503599627370496) by (vm_compute; reflexivity).
  rewrite Hp in Hlow; lia.
Qed.

(** The amplitude stays below the peak of the target type whenever the
    peak is a binary64 number, or the volume is below one. *)
Lemma amplitude_bounded (dt : dtype) (volume : F64.float) :
  signed_integer_dtype dt = true ->
  valid_binary F64.prec F64.emax volume = true ->
  F64.leb F64.zero volume && F64.leb volume F64.one = true ->
  itemsize dt < 8 \/ F64.ltb volume F64.one = true ->
  exists A k, representable A k /\ A <= peak dt /\ bounded_by A (amplitude dt volume).
Proof.
  intros Hdt Hvalid Hv Hguard.
  pose proof (unit_interval volume Hvalid Hv) as Hunit.
  apply signed_integer_dtype_inv in Hdt as [_ Hw].
  assert (Hsmall : forall A, peak dt = A -> 0 < A < 2 ^ 53 ->
            exists A k, representable A k /\ A <= peak dt /\ bounded_by A (amplitude dt volume)).
  { intros A HA Hr; exists A, 0.
    assert (Hrep : representable A 0).
    { split; [lia | split; [exact Hr | exists A; ring]]. }
    split; [exact Hrep | split; [lia |]].
    unfold amplitude; apply mul_bounded with (k := 0); [exact Hrep | | exact Hunit].
    apply of_Z_bounded with (k := 0); [exact Hrep | lia]. }
  unfold peak in *.
  destruct Hw as [Hw | [Hw | [Hw | Hw]]]; rewrite Hw in *.
  1-3: eapply Hsmall; [reflexivity | zdecide].
  destruct Hguard as [Hguard | Hlt]; [lia |].
  apply andb_true_iff in Hv as [H0 _].
  pose proof (below_one volume Hvalid H0 Hlt) as Hb.
  exists ((2 ^ 53 - 1) * 2 ^ 10), 10.
  assert (Hrep : representable ((2 ^ 53 - 1) * 2 ^ 10) 10).
  { split; [lia | split; [zdecide | exists (2 ^ 53 - 1); reflexivity]]. }
  split; [exact Hrep | split; [zdecide |]].
  unfold amplitude, peak; rewrite Hw.
  change (F64.of_Z (2 ^ (8 * 8 - 1) - 1)) with (S754_finite false 4503599627370496 11).
  destruct volume as [s | s | | s m e]; try contradiction; [exact I |].
  destruct Hb as [He Hm].
  unfold F64.mul, SFmul.
  apply binary_round_aux_bound with (k := 10); try apply Hrep.
  unfold dyadic_le.
  destruct (Z.leb_spec 0 (11 + e)) as [| _]; [lia |].
  rewrite Pos2Z.inj_mul.
  assert (Hp : 2 ^ 42 <= 2 ^ (- (11 + e))) by (apply Z.pow_le_mono_r; lia).
  change (Zpos 4503599627370496) with (2 ^ 52).
  transitivity (2 ^ 52 * (2 ^ 53 - 1)); [apply Z.mul_le_mono_nonneg_l; lia |].
  transitivity ((2 ^ 53 - 1) * 2 ^ 10 * 2 ^ 42); [zdecide |].
  apply Z.mul_le_mono_nonneg_l; [lia | exact Hp].
Qed.

(** *** No step of a constructor but the cast is undefined *)

Lemma bind_defined {A B : Type} (c : outcome A) (k : A -> outcome B) :
  c <> Undefined -> (forall a, c = Ok a -> k a <> Undefined) -> bind c k <> Undefined.
Proof.
  destruct c as [a | e |]; cbn; intros Hc Hk;
    [apply Hk; reflexivity | discriminate | exfalso; apply Hc; reflexivity].
Qed.

Lemma mapM_defined {A B : Type} (f : A -> outcome B) (l : list A) :
  (forall a, f a <> Undefined) -> mapM f l <> Undefined.
Proof.
  intros Hf; induction l as [| a l IH]; cbn [mapM]; [discriminate |].
  apply bind_defined; [apply Hf |]; intros b _.
  apply bind_defined; [exact IH | discriminate].
Qed.

Lemma mapM_all_Ok {A B : Type} (f : A -> outcome B) (l : list A) :
  Forall (fun a => exists b, f a = Ok b) l -> exists bs, mapM f l = Ok bs.
Proof.
  induction 1 as [| a l [b Hb] _ [bs Hbs]]; cbn [mapM].
  - exists []; reflexivity.
  - exists (b :: bs); rewrite Hb; cbn [bind]; rewrite Hbs; reflexivity.
Qed.

Lemma py_float_of_int_defined (z : Z) : py_float_of_int z <> Undefined.
Proof. unfold py_float_of_int; destruct (F64.is_finite _); discriminate. Qed.

Lemma Fraction_new_defined (n d : Z) : Fraction_new n d <> Undefined.
Proof. unfold Fraction_new; destruct (d =? 0); discriminate. Qed.

Lemma check_arguments_defined (dt : dtype) (volume : F64.float) :
  check_arguments dt volume <> Undefined.
Proof.
  unfold check_arguments, assert.
  destruct (negb _); [discriminate |]; destruct (_ && _); discriminate.
Qed.

Lemma amplitude_of_defined (dt : dtype) (volume : F64.float) :
  amplitude_of dt volume <> Undefined.
Proof.
  unfold amplitude_of; apply bind_defined; [apply py_float_of_int_defined | discriminate].
Qed.

Lemma py_mul_int_defined (a : pynum) (b : Z) : py_mul_int a b <> Undefined.
Proof.
  destruct a; cbn [py_mul_int]; [discriminate |].
  apply bind_defined; [apply py_float_of_int_defined | discriminate].
Qed.

Lemma np_arange_defined (stop : pynum) : np_arange stop <> Undefined.
Proof.
  destruct stop as [n | x]; unfold np_arange; [discriminate |].
  destruct (F64.ceilZ x); [destruct (_ || _) | destruct (F64.is_nan x)]; discriminate.
Qed.

Lemma half_period_defined (frequency framerate : Z) :
  half_period frequency framerate <> Undefined.
Proof.
  unfold half_period; apply bind_defined; [apply Fraction_new_defined |].
  intros p _; apply Fraction_new_defined.
Qed.

Lemma even_half_period_defined (arr : numarray) (hp : Fraction) :
  even_half_period arr hp <> Undefined.
Proof.
  destruct arr as [ns | xs]; cbn [even_half_period]; apply mapM_defined; intros a.
  - apply bind_defined; [| discriminate].
    unfold int_floordiv_Fraction; destruct (_ =? 0); discriminate.
  - apply bind_defined.
    + unfold float_floordiv_Fraction, F64.floordiv; destruct (F64.eqb _ _); discriminate.
    + intros q _; apply bind_defined; [| discriminate].
      unfold F64.rem; destruct (F64.eqb _ _); discriminate.
Qed.

Lemma square_rounded_defined (frequency : Z) (dt : dtype) (framerate : Z)
    (duration : pynum) (volume : F64.float) :
  square_rounded frequency dt framerate duration volume <> Undefined.
Proof.
  unfold square_rounded.
  apply bind_defined; [apply check_arguments_defined |]; intros _ _.
  apply bind_defined; [apply amplitude_of_defined |]; intros amp _.
  apply bind_defined; [apply py_mul_int_defined |]; intros stop _.
  apply bind_defined; [apply np_arange_defined |]; intros arr _.
  apply bind_defined; [apply half_period_defined |]; intros hp _.
  apply bind_defined; [apply even_half_period_defined | discriminate].
Qed.

Lemma harmonic_rounded_defined (np_sin : F64.float -> F64.float) (frequency : Z)
    (dt : dtype) (framerate : Z) (duration : pynum) (volume : F64.float) :
  harmonic_rounded np_sin frequency dt framerate duration volume <> Undefined.
Proof.
  unfold harmonic_rounded.
  apply bind_defined; [apply check_arguments_defined |]; intros _ _.
  apply bind_defined; [apply amplitude_of_defined |]; intros amp _.
  apply bind_defined; [apply py_mul_int_defined |]; intros stop _.
  apply bind_defined; [apply np_arange_defined |]; intros arr _.
  apply bind_defined; [apply py_float_of_int_defined | discriminate].
Qed.

Lemma MonoWave_init_defined (a : ndarray) (framerate : Z) :
  MonoWave_init a framerate <> Undefined.
Proof.
  unfold MonoWave_init, assert.
  destruct (Ascii.eqb _ _); cbn [bind]; [| discriminate].
  destruct (ndim a =? 1); cbn [bind]; [| discriminate].
  apply bind_defined; [apply Fraction_new_defined | discriminate].
Qed.

(** *** Samples below the peak convert *)

Lemma peak_eq (dt : dtype) : peak dt = 2 ^ (8 * itemsize dt - 1) - 1.
Proof. unfold peak; do 2 f_equal; lia. Qed.

Lemma astype_bounded (host : endian) (dt : dtype) (xs : list F64.float) :
  signed_integer_dtype dt = true ->
  Forall (bounded_by (peak dt)) xs -> exists a, astype host xs dt = Ok a.
Proof.
  intros Hdt Hxs; apply signed_integer_dtype_inv in Hdt as [_ Hw].
  assert (Hpos : 0 <= peak dt).
  { rewrite peak_eq; assert (0 < 2 ^ (8 * itemsize dt - 1)) by (apply Z.pow_pos_nonneg; lia); lia. }
  destruct (mapM_all_Ok (cast_to_int (itemsize dt)) xs) as [zs Hzs].
  { eapply Forall_impl; [| exact Hxs]; intros x Hx.
    destruct (cast_bounded (peak dt) (itemsize dt) x) as (z & Hz & _);
      [lia | rewrite <- peak_eq; lia | exact Hx | exists z; exact Hz]. }
  unfold astype; rewrite Hzs; cbn [bind]; eexists; reflexivity.
Qed.

Lemma harmonic_rounded_inv (np_sin : F64.float -> F64.float) (frequency : Z)
    (dt : dtype) (framerate : Z) (duration : pynum) (volume : F64.float)
    (xs : list F64.float) :
  signed_integer_dtype dt = true ->
  harmonic_rounded np_sin frequency dt framerate duration volume = Ok xs ->
  exists len,
    xs = map F64.rint
           (map (harmonic_value np_sin (amplitude dt volume)
                   (F64.mul F64.tau (F64.of_Z frequency)) framerate)
                (map F64.of_Z (iota len))).
Proof.
  intros Hdt H; unfold harmonic_rounded in H.
  apply bind_Ok in H as (_ & _ & H).
  rewrite amplitude_of_ok in H by exact Hdt; cbn [bind] in H.
  apply bind_Ok in H as (stop & _ & H).
  apply bind_Ok in H as (arr & Harr & H).
  apply bind_Ok in H as (f & Hf & H).
  destruct (np_arange_floats _ _ Harr) as (len & _ & Hfl & _).
  unfold py_float_of_int in Hf; destruct (F64.is_finite _); [| discriminate].
  injection Hf as <-; injection H as <-.
  exists len; rewrite Hfl; reflexivity.
Qed.

(** The reference [sin] stays within [-1, 1]. *)
Lemma Libm_sin_bounded (x : F64.float) :
  F64.is_finite x = true -> bounded_by 1 (Libm.sin x).
Proof.
  destruct x as [s | s | | s m e]; try discriminate; intros _; [exact I |].
  cbn [Libm.sin].
  destruct (Z.eqb_spec (Libm.to_fixed s m e) 0) as [Hz | _].
  - cbn [bounded_by]; unfold Libm.to_fixed, Libm.bits in Hz.
    destruct (Z.leb_spec 0 (e + 128)) as [Hge | Hlt].
    + assert (0 < Zpos m * 2 ^ (e + 128))
        by (apply Z.mul_pos_pos; [| apply Z.pow_pos_nonneg]; lia).
      destruct s; cbn [F64.signed] in Hz; lia.
    + assert (Hq : Zpos m / 2 ^ (- (e + 128)) = 0) by (destruct s; cbn [F64.signed] in Hz; lia).
      assert (Hp : 0 < 2 ^ (- (e + 128))) by (apply Z.pow_pos_nonneg; lia).
      apply Z.div_small_iff in Hq; [| lia].
      unfold dyadic_le; destruct (Z.leb_spec 0 e) as [| _]; [lia |].
      assert (2 ^ (- (e + 128)) <= 2 ^ (- e)) by (apply Z.pow_le_mono_r; lia).
      lia.
  - apply binary_normalize_bound with (k := 0).
    + split; [lia | split; [zdecide | exists 1; reflexivity]].
    + unfold Libm.sin_fixed.
      set (y := match _ mod 4 with 0 => _ | _ => _ end).
      unfold dyadic_le, Libm.bits; cbn [Z.leb Z.compare Z.opp].
      change (2 ^ 128) with Libm.unit.
      assert (0 < Libm.unit) by zdecide.
      lia.
Qed.

(** C9, as amended.  Let the dtype be a signed integer type of [W] bytes
    and the volume a binary64 number in [0, 1], with [W < 8] or
    [volume < 1].  Then every sample a square-wave construction rounds lies
    within [-(2^(8W-1) - 1), 2^(8W-1) - 1] and the construction never
    reaches an undefined cast.  The same holds for the harmonic generator
    when the C library's [sin] maps finite numbers into [-1, 1] and every
    phase [tau * frequency * n / framerate] of the buffer is finite. *)
Theorem samples_within_range (host : endian) (np_sin : F64.float -> F64.float)
    (frequency : Z) (dt : dtype) (framerate : Z) (duration : pynum)
    (volume : F64.float) :
  signed_integer_dtype dt = true ->
  valid_binary F64.prec F64.emax volume = true ->
  F64.leb F64.zero volume && F64.leb volume F64.one = true ->
  itemsize dt < 8 \/ F64.ltb volume F64.one = true ->
  (forall x, F64.is_finite x = true -> bounded_by 1 (np_sin x)) ->
  (forall n xs,
      harmonic_rounded np_sin frequency dt framerate duration volume = Ok xs ->
      (n < List.length xs)%nat ->
      F64.is_finite
        (harmonic_phase (F64.mul F64.tau (F64.of_Z frequency)) framerate
           (F64.of_Z (Z.of_nat n))) = true) ->
  (forall xs, square_rounded frequency dt framerate duration volume = Ok xs ->
              Forall (bounded_by (2 ^ (8 * itemsize dt - 1) - 1)) xs)
  /\ SquareWave host frequency dt framerate duration volume <> Undefined
  /\ (forall xs, harmonic_rounded np_sin frequency dt framerate duration volume = Ok xs ->
                 Forall (bounded_by (2 ^ (8 * itemsize dt - 1) - 1)) xs)
  /\ SimpleHarmonicWave host np_sin frequency dt framerate duration volume <> Undefined.
Proof.
  intros Hdt Hvalid Hv Hguard Hsin Hphase.
  rewrite <- peak_eq.
  destruct (amplitude_bounded dt volume Hdt Hvalid Hv Hguard) as (A & k & Hrep & HA & Hamp).
  assert (Hsq : forall xs, square_rounded frequency dt framerate duration volume = Ok xs ->
                           Forall (bounded_by (peak dt)) xs).
  { intros xs Hxs; destruct (square_rounded_inv _ _ _ _ _ _ Hdt Hxs) as (even & ->).
    apply Forall_forall; intros x Hx.
    apply in_map_iff in Hx as (y & <- & Hy).
    apply in_map_iff in Hy as (c & <- & _).
    apply bounded_by_weaken with (A := A); [exact HA |].
    apply rint_bounded with (k := k); [exact Hrep |].
    destruct c; [| apply bounded_by_opp]; exact Hamp. }
  assert (Hha : forall xs,
             harmonic_rounded np_sin frequency dt framerate duration volume = Ok xs ->
             Forall (bounded_by (peak dt)) xs).
  { intros xs Hxs; destruct (harmonic_rounded_inv _ _ _ _ _ _ _ Hdt Hxs) as (len & Heq).
    assert (Hlen : List.length xs = Z.to_nat len)
      by (rewrite Heq, !length_map; apply iota_length).
    rewrite Heq; apply Forall_forall; intros x Hx.
    apply in_map_iff in Hx as (y & <- & Hy).
    apply in_map_iff in Hy as (s & <- & Hs).
    apply in_map_iff in Hs as (z & <- & Hz).
    unfold iota in Hz; apply in_map_iff in Hz as (n & <- & Hn); apply in_seq in Hn.
    apply bounded_by_weaken with (A := A); [exact HA |].
    apply rint_bounded with (k := k); [exact Hrep |].
    unfold harmonic_value; apply mul_bounded with (k := k); [exact Hrep | exact Hamp |].
    apply Hsin, (Hphase n xs Hxs); lia. }
  split; [exact Hsq |].
  split.
  { unfold SquareWave; apply bind_defined; [apply square_rounded_defined |].
    intros xs Hxs; destruct (astype_bounded host dt xs Hdt (Hsq xs Hxs)) as [a Ha].
    rewrite Ha; cbn [bind]; apply MonoWave_init_defined. }
  split; [exact Hha |].
  unfold SimpleHarmonicWave; apply bind_defined; [apply harmonic_rounded_defined |].
  intros xs Hxs; destruct (astype_bounded host dt xs Hdt (Hha xs Hxs)) as [a Ha].
  rewrite Ha; cbn [bind]; apply MonoWave_init_defined.
Qed.

(** One second of a 1 Hz wave at 8 samples a second, full volume, in
    [int8], with the reference [sin]. *)
Lemma samples_within_range_witness :
  (forall xs, square_rounded 1 int8 8 (PyFloat F64.one) F64.one = Ok xs ->
              Forall (bounded_by (2 ^ (8 * itemsize int8 - 1) - 1)) xs)
  /\ SquareWave Little 1 int8 8 (PyFloat F64.one) F64.one <> Undefined
  /\ (forall xs, harmonic_rounded Libm.sin 1 int8 8 (PyFloat F64.one) F64.one = Ok xs ->
                 Forall (bounded_by (2 ^ (8 * itemsize int8 - 1) - 1)) xs)
  /\ SimpleHarmonicWave Little Libm.sin 1 int8 8 (PyFloat F64.one) F64.one <> Undefined.
Proof.
  apply (samples_within_range Little Libm.sin 1 int8 8 (PyFloat F64.one) F64.one).
  - reflexivity.
  - reflexivity.
  - reflexivity.
  - left; reflexivity.
  - exact Libm_sin_bounded.
  - intros n xs Hxs Hn.
    vm_compute in Hxs; injection Hxs as <-; cbn [List.length] in Hn.
    do 8 (destruct n as [| n]; [vm_compute; reflexivity |]).
    exfalso; lia.
Defined.

(** C9, counterexample.  [SquareWave(1, np.int64, 8, 1.0)] with the default
    volume 1.0: the peak [2^63 - 1] is not a binary64 number, the product
    with the volume is [2^63], and the first sample, [+2^63], does not fit
    [int64]. *)
Lemma square_int64_full_volume_overflows :
  signed_integer_dtype int64 = true
  /\ F64.leb F64.zero F64.one && F64.leb F64.one F64.one = true
  /\ amplitude int64 F64.one = S754_finite false 4503599627370496 11
  /\ exists xs,
       square_rounded 1 int64 8 (PyFloat F64.one) F64.one = Ok xs
       /\ nth_error xs 0 = Some (S754_finite false 4503599627370496 11)
       /\ ~ Forall (bounded_by (2 ^ (8 * itemsize int64 - 1) - 1)) xs
       /\ SquareWave Little 1 int64 8 (PyFloat F64.one) F64.one = Undefined.
Proof.
  split; [reflexivity |].
  split; [reflexivity |].
  split; [vm_compute; reflexivity |].
  eexists; split; [vm_compute; reflexivity |].
  split; [reflexivity |].
  split; [| vm_compute; reflexivity].
  intros H; inversion H as [| x l Hx _]; subst.
  vm_compute in Hx; apply Hx; reflexivity.
Qed.

(** ** Rejection of other dtypes *)

(** C5.  With a dtype whose kind is not ["i"], each constructor raises
    [ValueError], whatever the other arguments are: the check comes before
    the volume assertion and before any array is computed, so no later
    failure can take its place. *)
Theorem non_signed_dtype_rejected (host : endian) (np_sin : F64.float -> F64.float)
    (frequency : Z) (dt : dtype) (framerate : Z) (duration : pynum)
    (volume : F64.float) :
  kind dt <> "i"%char ->
  harmonic_rounded np_sin frequency dt framerate duration volume
  = Raise (ValueError "dtype must be signed integer")
  /\ SimpleHarmonicWave host np_sin frequency dt framerate duration volume
     = Raise (ValueError "dtype must be signed integer")
  /\ square_rounded frequency dt framerate duration volume
     = Raise (ValueError "dtype must be signed integer")
  /\ SquareWave host frequency dt framerate duration volume
     = Raise (ValueError "dtype must be signed integer").
Proof.
  intros Hk.
  assert (Hc : check_arguments dt volume = Raise (ValueError "dtype must be signed integer")).
  { unfold check_arguments.
    destruct (Ascii.eqb_spec (kind dt) "i") as [Heq | _]; [contradiction | reflexivity]. }
  unfold SimpleHarmonicWave, SquareWave, harmonic_rounded, square_rounded.
  rewrite Hc; repeat split; reflexivity.
Qed.

(** [uint8] with a zero frequency, a zero frame rate, a NaN duration and a
    volume of 2: every later step would fail, the dtype check fails first. *)
Lemma non_signed_dtype_rejected_witness :
  harmonic_rounded Libm.sin 0 uint8 0 (PyFloat S754_nan) (F64.of_Z 2)
  = Raise (ValueError "dtype must be signed integer")
  /\ SimpleHarmonicWave Little Libm.sin 0 uint8 0 (PyFloat S754_nan) (F64.of_Z 2)
     = Raise (ValueError "dtype must be signed integer")
  /\ square_rounded 0 uint8 0 (PyFloat S754_nan) (F64.of_Z 2)
     = Raise (ValueError "dtype must be signed integer")
  /\ SquareWave Little 0 uint8 0 (PyFloat S754_nan) (F64.of_Z 2)
     = Raise (ValueError "dtype must be signed integer").
Proof.
  apply (non_signed_dtype_rejected Little Libm.sin 0 uint8 0 (PyFloat S754_nan) (F64.of_Z 2)).
  discriminate.
Defined.

Example float32_rejected :
  SquareWave Little 440 float32 44100 (PyFloat F64.one) F64.half
  = Raise (ValueError "dtype must be signed integer").
Proof. reflexivity. Qed.

(** ** The container *)

(** An array in native byte order is stored as it is. *)
Lemma MonoWave_init_native (a : ndarray) (rate : Z) :
  kind (arr_dtype a) = "i"%char -> ndim a = 1 -> byteorder (arr_dtype a) = "="%char ->
  rate <> 0 ->
  exists w, MonoWave_init a rate = Ok w /\ samples w = a.
Proof.
  intros Hk Hn Hb Hr; unfold MonoWave_init, Fraction_new.
  rewrite Hk, Hn, Hb; cbn [Ascii.eqb Bool.eqb assert bind negb Z.eqb Pos.eqb].
  destruct (Z.eqb_spec rate 0) as [| _]; [contradiction |].
  eexists; split; reflexivity.
Qed.

(** A buffer cast to a native signed integer dtype is stored unchanged:
    for one-byte elements the byte swap has nothing to reverse. *)
Lemma native_buffer_stored (host : endian) (dt : dtype) (xs : list F64.float)
    (a : ndarray) (rate : Z) (w : MonoWave) :
  signed_integer_dtype dt = true ->
  byteorder dt = "="%char \/ byteorder dt = "|"%char ->
  astype host xs dt = Ok a -> MonoWave_init a rate = Ok w -> samples w = a.
Proof.
  intros Hdt Hb Ha Hw; unfold astype in Ha.
  apply bind_Ok in Ha as (zs & _ & Ha); injection Ha as <-.
  unfold MonoWave_init in Hw; cbn [arr_dtype ndim] in Hw.
  apply bind_Ok in Hw as (_ & _ & Hw); apply bind_Ok in Hw as (_ & _ & Hw).
  apply bind_Ok in Hw as (st & _ & Hw); injection Hw as <-; cbn [samples].
  destruct Hb as [Hb | Hb]; rewrite Hb; cbn [Ascii.eqb Bool.eqb negb]; [reflexivity |].
  unfold signed_integer_dtype in Hdt; rewrite Hb in Hdt.
  cbn [Ascii.eqb Bool.eqb] in Hdt; rewrite !andb_false_r, orb_false_r in Hdt.
  apply andb_true_iff in Hdt as [_ Hdt]; apply andb_true_iff in Hdt as [Hw1 _].
  apply Z.eqb_eq in Hw1; rewrite Hw1.
  unfold byteswap; cbn [arr_dtype ndim elements]; f_equal.
  rewrite map_map; apply map_ext; intros z.
  unfold encode; cbn [Z.to_nat Pos.to_nat Pos.iter_op Nat.add le_bytes].
  destruct (storage_order host dt); reflexivity.
Qed.

(** C6, at the failing input: the one-element array [[1]] of dtype [">i2"]
    on a little-endian machine.  [byteswap] reverses the bytes and keeps
    the dtype, and the native view is dropped, so the stored array is
    still big-endian and reads 256. *)
Theorem MonoWave_init_big_endian_input :
  let a := {| arr_dtype := mkDtype "i" 2 ">"; ndim := 1; elements := [[0; 1]] |} in
  values Little a = [1]
  /\ exists w,
       MonoWave_init a 8 = Ok w
       /\ byteorder (arr_dtype (samples w)) = ">"%char
       /\ values Little (samples w) = [256]
       /\ values Little (view (samples w) (newbyteorder (arr_dtype (samples w)) "=")) = [1].
Proof.
  cbv zeta; split; [reflexivity |].
  eexists; split; [reflexivity |].
  repeat split.
Qed.

(** C7.  For a one-dimensional signed integer array and a positive frame
    rate the container is built, its step is the fraction [1 / framerate]
    and its duration is the fraction [size * step], in lowest terms: both
    are exact rationals. *)
Theorem MonoWave_step_duration (a : ndarray) (rate : Z) :
  kind (arr_dtype a) = "i"%char -> ndim a = 1 -> 0 < rate ->
  exists w,
    MonoWave_init a rate = Ok w
    /\ framerate w = rate
    /\ step w = {| numerator := 1; denominator := rate |}
    /\ size (samples w) = size a
    /\ (Fraction_to_Q (step w) == 1 / inject_Z rate)%Q
    /\ (Fraction_to_Q (duration w) == inject_Z (size (samples w)) * Fraction_to_Q (step w))%Q
    /\ 0 < denominator (duration w)
    /\ Z.gcd (numerator (duration w)) (denominator (duration w)) = 1.
Proof.
  intros Hk Hn Hr; unfold MonoWave_init, Fraction_new.
  rewrite Hk, Hn; cbn [Ascii.eqb Bool.eqb assert bind Z.eqb Pos.eqb].
  destruct (Z.eqb_spec rate 0) as [| _]; [lia |]; cbn [bind].
  assert (Hstep : Fraction_normalized 1 rate = {| numerator := 1; denominator := rate |}).
  { unfold Fraction_normalized; rewrite Z.gcd_1_l.
    destruct (Z.ltb_spec rate 0) as [| _]; [lia |].
    rewrite !Z.div_1_r; reflexivity. }
  rewrite Hstep.
  set (stored := if negb (Ascii.eqb (byteorder (arr_dtype a)) "=") then byteswap a else a).
  assert (Hsize : size stored = size a).
  { unfold stored, size; destruct (negb _); [| reflexivity].
    cbn [byteswap elements]; rewrite length_map; reflexivity. }
  eexists; split; [reflexivity |].
  cbn [framerate step duration samples]; fold stored.
  split; [reflexivity |]. split; [reflexivity |]. split; [exact Hsize |].
  unfold Fraction_mul_int; cbn [numerator denominator].
  destruct (Fraction_normalized_spec (1 * size stored) (rate * 1) ltac:(lia))
    as (Hden & Hval & Hgcd).
  set (d := Fraction_normalized (1 * size stored) (rate * 1)) in *.
  split.
  { unfold Fraction_to_Q, Qeq; cbn [Qnum Qden numerator denominator Qdiv Qmult Qinv inject_Z].
    destruct rate as [| p | p]; try lia; cbn; lia. }
  split.
  { unfold Fraction_to_Q, Qeq; cbn [Qnum Qden numerator denominator Qmult inject_Z].
    rewrite Pos2Z.inj_mul, !Z2Pos.id by lia. nia. }
  split; assumption.
Qed.

(** Three [int16] samples at 8 frames a second: a step of 1/8 and a
    duration of 3/8. *)
Lemma MonoWave_step_duration_witness :
  exists w,
    MonoWave_init {| arr_dtype := int16; ndim := 1; elements := [[1; 0]; [2; 0]; [3; 0]] |} 8
    = Ok w
    /\ framerate w = 8
    /\ step w = {| numerator := 1; denominator := 8 |}
    /\ size (samples w)
       = size {| arr_dtype := int16; ndim := 1; elements := [[1; 0]; [2; 0]; [3; 0]] |}
    /\ (Fraction_to_Q (step w) == 1 / inject_Z 8)%Q
    /\ (Fraction_to_Q (duration w) == inject_Z (size (samples w)) * Fraction_to_Q (step w))%Q
    /\ 0 < denominator (duration w)
    /\ Z.gcd (numerator (duration w)) (denominator (duration w)) = 1.
Proof.
  apply (MonoWave_step_duration
           {| arr_dtype := int16; ndim := 1; elements := [[1; 0]; [2; 0]; [3; 0]] |} 8).
  - reflexivity.
  - reflexivity.
  - reflexivity.
Defined.

Example duration_three_eighths :
  match MonoWave_init
          {| arr_dtype := int16; ndim := 1; elements := [[1; 0]; [2; 0]; [3; 0]] |} 8 with
  | Ok w => duration w = {| numerator := 3; denominator := 8 |}
  | _ => False
  end.
Proof. reflexivity. Qed.

(** *** Methods that only read *)

Lemma preserves_mbind {A B : Type} (c : Method A) (k : A -> Method B) :
  preserves c -> (forall a, preserves (k a)) -> preserves (mbind c k).
Proof.
  intros Hc Hk st; unfold mbind.
  specialize (Hc st); destruct (c st) as [[a | e |] st']; cbn [snd] in *;
    [rewrite Hk | |]; exact Hc.
Qed.

Lemma preserves_ret {A : Type} (a : A) : preserves (ret a).
Proof. intros st; reflexivity. Qed.

Lemma preserves_throw {A : Type} (e : exn) : preserves (@throw A e).
Proof. intros st; reflexivity. Qed.

Lemma preserves_lift {A : Type} (c : outcome A) : preserves (lift c).
Proof. intros st; reflexivity. Qed.

Lemma preserves_attr {A : Type} (field : MonoWave -> A) : preserves (attr field).
Proof. intros st; reflexivity. Qed.

Lemma preserves_plt (c : plot_cmd) : preserves (plt c).
Proof. intros st; reflexivity. Qed.

Lemma preserves_open_wb (filename : string) : preserves (open_wb filename).
Proof. intros st; unfold open_wb; destruct (can_open _ _); reflexivity. Qed.

Lemma preserves_write (filename : string) (f : file) : preserves (write filename f).
Proof. intros st; reflexivity. Qed.

Ltac preserve :=
  repeat first
    [ apply preserves_mbind; [| intros ?]
    | apply preserves_ret | apply preserves_throw | apply preserves_lift
    | apply preserves_attr | apply preserves_plt | apply preserves_open_wb
    | apply preserves_write
    | match goal with |- preserves (if ?b then _ else _) => destruct b end ].

(** C8.  [show] and [save] leave the object as it was, whether they return
    or raise: its samples, frame rate, step and duration are unchanged. *)
Theorem show_save_leave_object_unchanged (host : endian) (title filename : string)
    (st : State) :
  self (snd (show host title st)) = self st
  /\ self (snd (save host filename st)) = self st
  /\ samples (self (snd (save host filename (snd (show host title st))))) = samples (self st)
  /\ framerate (self (snd (save host filename (snd (show host title st)))))
     = framerate (self st)
  /\ step (self (snd (save host filename (snd (show host title st))))) = step (self st)
  /\ duration (self (snd (save host filename (snd (show host title st)))))
     = duration (self st).
Proof.
  assert (Hshow : preserves (show host title)) by (unfold show; preserve).
  assert (Hsave : preserves (save host filename)) by (unfold save; preserve).
  split; [apply Hshow |]. split; [apply Hsave |].
  rewrite Hsave, Hshow; repeat split.
Qed.

(** Assigning an attribute is what a method would have to do to change
    the object. *)
Example setattr_changes_object (w w' : MonoWave) (world : World) :
  self (snd (setattr w' {| self := w; world := world |})) = w'.
Proof. reflexivity. Qed.

(** ** Determinism *)






(** There both constructions return; the samples agree and the bytes that
    hold them do not. *)
Example harmonic_on_both_machines :
  match SimpleHarmonicWave Little Libm.sin 1 int16 8 (PyFloat F64.one) F64.half,
        SimpleHarmonicWave Big Libm.sin 1 int16 8 (PyFloat F64.one) F64.half with
  | Ok w, Ok w' =>
      values Little (samples w) = [0; 11585; 16384; 11585; 0; -11585; -16384; -11585]
      /\ values Big (samples w') = values Little (samples w)
      /\ nth_error (elements (samples w)) 1 = Some [65; 45]
      /\ nth_error (elements (samples w')) 1 = Some [45; 65]
  | _, _ => False
  end.
Proof. vm_compute; repeat split. Qed.

(** * Further properties of the constructors and of [save] *)

(** ** What [MonoWave.__init__] accepts *)

Lemma byteswap_size (a : ndarray) : size (byteswap a) = size a.
Proof. unfold size, byteswap; cbn [elements]; rewrite length_map; reflexivity. Qed.

(** The attributes a successful [MonoWave.__init__] assigns. *)
Lemma MonoWave_init_inv (a : ndarray) (rate : Z) (w : MonoWave) :
  MonoWave_init a rate = Ok w ->
  kind (arr_dtype a) = "i"%char /\ ndim a = 1 /\ rate <> 0
  /\ samples w = (if negb (Ascii.eqb (byteorder (arr_dtype a)) "=") then byteswap a else a)
  /\ framerate w = rate
  /\ step w = Fraction_normalized 1 rate
  /\ duration w = Fraction_mul_int (Fraction_normalized 1 rate) (size a).
Proof.
  unfold MonoWave_init, assert, Fraction_new; intros H.
  destruct (Ascii.eqb_spec (kind (arr_dtype a)) "i") as [Hk | _]; [| discriminate].
  cbn [bind] in H.
  destruct (Z.eqb_spec (ndim a) 1) as [Hn | _]; [| discriminate].
  cbn [bind] in H.
  destruct (Z.eqb_spec rate 0) as [| Hr]; [discriminate |].
  cbn [bind] in H; injection H as <-; cbn [samples framerate step duration].
  repeat split; try assumption.
  destruct (negb _); [rewrite byteswap_size |]; reflexivity.
Qed.

Lemma MonoWave_init_ok (a : ndarray) (rate : Z) :
  kind (arr_dtype a) = "i"%char -> ndim a = 1 -> rate <> 0 ->
  exists w, MonoWave_init a rate = Ok w.
Proof.
  intros Hk Hn Hr; unfold MonoWave_init, Fraction_new.
  rewrite Hk, Hn; cbn [Ascii.eqb Bool.eqb assert bind Z.eqb Pos.eqb].
  destruct (Z.eqb_spec rate 0) as [| _]; [contradiction |].
  eexists; reflexivity.
Qed.

(** X1.  [MonoWave.__init__] returns a wave exactly for a one-dimensional
    signed integer array and a non-zero frame rate.  A wrong kind or
    dimension fails the assertions whatever the frame rate is, a zero frame
    rate then raises [ZeroDivisionError] from [Fraction(1, 0)]; the wave
    keeps the number of samples and the frame rate it was given. *)
Theorem MonoWave_init_outcome (a : ndarray) (rate : Z) :
  ((exists w, MonoWave_init a rate = Ok w)
   <-> kind (arr_dtype a) = "i"%char /\ ndim a = 1 /\ rate <> 0)
  /\ (kind (arr_dtype a) <> "i"%char \/ ndim a <> 1 ->
      MonoWave_init a rate = Raise AssertionError)
  /\ (kind (arr_dtype a) = "i"%char /\ ndim a = 1 /\ rate = 0 ->
      MonoWave_init a rate = Raise ZeroDivisionError)
  /\ (forall w, MonoWave_init a rate = Ok w ->
                size (samples w) = size a /\ framerate w = rate
                /\ arr_dtype (samples w) = arr_dtype a).
Proof.
  split; [split |].
  - intros [w Hw]; apply MonoWave_init_inv in Hw; tauto.
  - intros (Hk & Hn & Hr); apply MonoWave_init_ok; assumption.
  - split; [| split].
    + unfold MonoWave_init, assert; intros [Hk | Hn].
      * destruct (Ascii.eqb_spec (kind (arr_dtype a)) "i"); [contradiction | reflexivity].
      * destruct (Ascii.eqb (kind (arr_dtype a)) "i"); [| reflexivity].
        cbn [bind]; destruct (Z.eqb_spec (ndim a) 1); [contradiction | reflexivity].
    + intros (Hk & Hn & ->); unfold MonoWave_init.
      rewrite Hk, Hn; reflexivity.
    + intros w Hw; apply MonoWave_init_inv in Hw as (_ & _ & _ & Hs & Hf & _).
      rewrite Hs; split; [| split; [exact Hf |]];
        destruct (negb _); try reflexivity; apply byteswap_size.
Qed.

(** ** Argument checks of the generators *)

(** X2.  With a signed integer dtype, a volume that fails
    [0.0 <= volume <= 1.0] (too small, too large or NaN) makes both
    constructors raise [AssertionError], whatever the other arguments:
    the assertion precedes [np.arange] and [Fraction(1, frequency)]. *)
Theorem volume_outside_unit_interval_asserts (host : endian)
    (np_sin : F64.float -> F64.float) (frequency : Z) (dt : dtype) (rate : Z)
    (d : pynum) (volume : F64.float) :
  kind dt = "i"%char ->
  F64.leb F64.zero volume && F64.leb volume F64.one = false ->
  SimpleHarmonicWave host np_sin frequency dt rate d volume = Raise AssertionError
  /\ SquareWave host frequency dt rate d volume = Raise AssertionError.
Proof.
  intros Hk Hv.
  assert (Hc : check_arguments dt volume = Raise AssertionError).
  { unfold check_arguments, assert; rewrite Hk, Hv; reflexivity. }
  unfold SimpleHarmonicWave, SquareWave, harmonic_rounded, square_rounded.
  rewrite Hc; split; reflexivity.
Qed.

(** A NaN volume, with a zero frequency and a NaN duration behind it. *)
Lemma volume_outside_unit_interval_asserts_witness :
  SimpleHarmonicWave Little Libm.sin 0 int16 0 (PyFloat S754_nan) S754_nan
  = Raise AssertionError
  /\ SquareWave Little 0 int16 0 (PyFloat S754_nan) S754_nan = Raise AssertionError.
Proof.
  apply (volume_outside_unit_interval_asserts Little Libm.sin 0 int16 0
           (PyFloat S754_nan) S754_nan).
  - reflexivity.
  - reflexivity.
Defined.

(** X3.  A zero frequency makes the square generator raise
    [ZeroDivisionError] (from [Fraction(1, 0)]) once the dtype and volume
    checks pass and [np.arange] has run, even for an empty buffer. *)
Theorem square_zero_frequency_raises (host : endian) (dt : dtype) (rate : Z)
    (d stop : pynum) (volume : F64.float) (arr : numarray) :
  signed_integer_dtype dt = true ->
  F64.leb F64.zero volume && F64.leb volume F64.one = true ->
  py_mul_int d rate = Ok stop ->
  np_arange stop = Ok arr ->
  SquareWave host 0 dt rate d volume = Raise ZeroDivisionError.
Proof.
  intros Hdt Hv Hstop Harr; unfold SquareWave, square_rounded.
  rewrite check_arguments_ok by (try apply signed_integer_dtype_inv; assumption).
  cbn [bind]; rewrite amplitude_of_ok by assumption.
  cbn [bind]; rewrite Hstop; cbn [bind]; rewrite Harr; reflexivity.
Qed.

Lemma square_zero_frequency_raises_witness :
  SquareWave Little 0 int8 44100 (PyInt 0) F64.half = Raise ZeroDivisionError.
Proof.
  apply (square_zero_frequency_raises Little int8 44100 (PyInt 0) (PyInt 0) F64.half
           (IntArray [])).
  - reflexivity.
  - reflexivity.
  - reflexivity.
  - reflexivity.
Defined.

(** ** The wave a generator returns *)

Lemma Forall2_length_eq {A B : Type} (R : A -> B -> Prop) (l : list A) (l' : list B) :
  Forall2 R l l' -> List.length l = List.length l'.
Proof. induction 1; cbn; congruence. Qed.

Lemma Fraction_one_over (rate : Z) :
  0 < rate -> Fraction_normalized 1 rate = {| numerator := 1; denominator := rate |}.
Proof.
  intros Hr; unfold Fraction_normalized; rewrite Z.gcd_1_l.
  destruct (Z.ltb_spec rate 0) as [| _]; [lia |].
  rewrite !Z.div_1_r; reflexivity.
Qed.

(** [k * rate] samples at [rate] frames a second last [k] seconds exactly. *)
Lemma Fraction_normalized_multiple (k rate : Z) :
  0 < rate -> 0 <= k ->
  Fraction_normalized (1 * (k * rate)) (rate * 1) = {| numerator := k; denominator := 1 |}.
Proof.
  intros Hr Hk.
  destruct (Fraction_normalized_spec (1 * (k * rate)) (rate * 1) ltac:(lia))
    as (Hden & Hval & Hgcd).
  destruct (Fraction_normalized (1 * (k * rate)) (rate * 1)) as [n d].
  cbn [numerator denominator] in *.
  assert (Hn : n = k * d) by nia.
  subst n; rewrite Z.gcd_comm, Z.mul_comm, Z.gcd_mul_diag_l in Hgcd by lia.
  subst d; f_equal; lia.
Qed.

(** What [astype] builds: one encoded element for each converted value. *)
Lemma astype_inv (host : endian) (xs : list F64.float) (dt : dtype) (a : ndarray) :
  0 < itemsize dt -> astype host xs dt = Ok a ->
  exists zs,
    a = {| arr_dtype := dt; ndim := 1;
           elements := map (encode (storage_order host dt) (itemsize dt)) zs |}
    /\ Forall2 (fun x z => cast_to_int (itemsize dt) x = Ok z) xs zs
    /\ values host a = zs.
Proof.
  intros Hw H; pose proof (astype_values host xs dt a Hw H) as (_ & _ & Hall).
  unfold astype in H; apply bind_Ok in H as (zs & Hzs & H); injection H as <-.
  exists zs; split; [reflexivity |].
  apply mapM_Forall2 in Hzs; split; [exact Hzs |].
  unfold values; cbn [arr_dtype elements]; rewrite map_map.
  clear Hall; induction Hzs as [| x z l l' Hxz _ IH]; cbn [map]; [reflexivity |].
  rewrite IH, decode_encode; [reflexivity | exact Hw |].
  apply cast_to_int_range with (x := x); assumption.
Qed.

(** The container built on a freshly cast buffer of [n] samples. *)
Lemma wave_of_rounded (host : endian) (xs : list F64.float) (dt : dtype)
    (a : ndarray) (rate : Z) (w : MonoWave) :
  0 < itemsize dt -> 0 < rate ->
  astype host xs dt = Ok a -> MonoWave_init a rate = Ok w ->
  size (samples w) = Z.of_nat (List.length xs)
  /\ arr_dtype (samples w) = dt
  /\ framerate w = rate
  /\ step w = {| numerator := 1; denominator := rate |}
  /\ duration w = Fraction_normalized (1 * Z.of_nat (List.length xs)) (rate * 1).
Proof.
  intros Hw Hr Ha Hinit.
  destruct (astype_inv host xs dt a Hw Ha) as (zs & Heq & Hall & _).
  apply Forall2_length_eq in Hall.
  assert (Hsize : size a = Z.of_nat (List.length xs)).
  { rewrite Heq; unfold size; cbn [elements]; rewrite length_map; congruence. }
  apply MonoWave_init_inv in Hinit as (_ & _ & _ & Hs & Hf & Hst & Hd).
  rewrite Fraction_one_over in Hst, Hd by exact Hr.
  rewrite Hs, Hd, Hsize.
  split; [destruct (negb _); [rewrite byteswap_size |]; exact Hsize |].
  split; [destruct (negb _); rewrite Heq; reflexivity |].
  split; [exact Hf |]. split; [exact Hst |].
  unfold Fraction_mul_int; cbn [numerator denominator]; reflexivity.
Qed.

Lemma harmonic_rounded_length (np_sin : F64.float -> F64.float) (frequency : Z)
    (dt : dtype) (rate : Z) (d : pynum) (volume : F64.float) (xs : list F64.float) :
  harmonic_rounded np_sin frequency dt rate d volume = Ok xs ->
  exists stop len,
    py_mul_int d rate = Ok stop /\ arange_length stop = Some len
    /\ List.length xs = Z.to_nat len.
Proof.
  intros H; unfold harmonic_rounded in H.
  apply bind_Ok in H as (_ & _ & H).
  apply bind_Ok in H as (amp & _ & H).
  apply bind_Ok in H as (stop & Hstop & H).
  apply bind_Ok in H as (arr & Harr & H).
  apply bind_Ok in H as (f & _ & H).
  destruct (np_arange_floats _ _ Harr) as (len & Hlen & Hfl & _).
  injection H as <-; exists stop, len.
  rewrite !length_map, Hfl, length_map, iota_length; auto.
Qed.

Lemma square_rounded_length (frequency : Z) (dt : dtype) (rate : Z) (d : pynum)
    (volume : F64.float) (xs : list F64.float) :
  square_rounded frequency dt rate d volume = Ok xs ->
  exists stop len,
    py_mul_int d rate = Ok stop /\ arange_length stop = Some len
    /\ List.length xs = Z.to_nat len.
Proof.
  intros H; unfold square_rounded in H.
  apply bind_Ok in H as (_ & _ & H).
  apply bind_Ok in H as (amp & _ & H).
  apply bind_Ok in H as (stop & Hstop & H).
  apply bind_Ok in H as (arr & Harr & H).
  apply bind_Ok in H as (hp & _ & H).
  apply bind_Ok in H as (even & Heven & H).
  destruct (np_arange_floats _ _ Harr) as (len & Hlen & Hfl & Hsize).
  injection H as <-; exists stop, len.
  split; [exact Hstop | split; [exact Hlen |]].
  rewrite !length_map, <- Hsize.
  destruct arr as [ns | fs]; cbn [even_half_period numarray_size] in *;
    apply mapM_Forall2, Forall2_length_eq in Heven; congruence.
Qed.

(** X4.  A wave returned by either generator for a positive frame rate
    carries the dtype and the frame rate it was asked for, as many samples
    as [np.arange(duration * framerate)] has elements, the step
    [1 / framerate], and a duration that is exactly that count over the
    frame rate, in lowest terms. *)
Theorem constructed_wave_metadata (host : endian) (np_sin : F64.float -> F64.float)
    (frequency : Z) (dt : dtype) (rate : Z) (d : pynum) (volume : F64.float)
    (w : MonoWave) :
  signed_integer_dtype dt = true -> 0 < rate ->
  SimpleHarmonicWave host np_sin frequency dt rate d volume = Ok w
  \/ SquareWave host frequency dt rate d volume = Ok w ->
  exists stop len,
    py_mul_int d rate = Ok stop /\ arange_length stop = Some len
    /\ size (samples w) = Z.max 0 len
    /\ arr_dtype (samples w) = dt
    /\ framerate w = rate
    /\ step w = {| numerator := 1; denominator := rate |}
    /\ numerator (duration w) * rate = Z.max 0 len * denominator (duration w)
    /\ 0 < denominator (duration w)
    /\ Z.gcd (numerator (duration w)) (denominator (duration w)) = 1.
Proof.
  intros Hdt Hr H.
  pose proof (signed_integer_dtype_inv dt Hdt) as [_ Hw].
  assert (Hgen : exists xs a stop len,
             py_mul_int d rate = Ok stop /\ arange_length stop = Some len
             /\ List.length xs = Z.to_nat len
             /\ astype host xs dt = Ok a /\ MonoWave_init a rate = Ok w).
  { destruct H as [H | H]; [unfold SimpleHarmonicWave in H | unfold SquareWave in H];
      apply bind_Ok in H as (xs & Hxs & H); apply bind_Ok in H as (a & Ha & H).
    - destruct (harmonic_rounded_length _ _ _ _ _ _ _ Hxs) as (stop & len & ? & ? & ?).
      exists xs, a, stop, len; auto.
    - destruct (square_rounded_length _ _ _ _ _ _ Hxs) as (stop & len & ? & ? & ?).
      exists xs, a, stop, len; auto. }
  destruct Hgen as (xs & a & stop & len & Hstop & Hlen & Hxs & Ha & Hinit).
  destruct (wave_of_rounded host xs dt a rate w ltac:(lia) Hr Ha Hinit)
    as (Hsize & Hdtype & Hrate & Hstep & Hdur).
  assert (Hcount : Z.of_nat (List.length xs) = Z.max 0 len) by lia.
  rewrite Hcount in Hsize, Hdur.
  destruct (Fraction_normalized_spec (1 * Z.max 0 len) (rate * 1) ltac:(lia))
    as (Hden & Hval & Hgcd).
  rewrite <- Hdur in Hden, Hval, Hgcd.
  exists stop, len; repeat split; try assumption; lia.
Qed.

(** A quarter of a second of square wave at 9 frames a second: three
    samples (the ceiling of 2.25) and a duration of 3/9 = 1/3 second. *)
Lemma constructed_wave_metadata_witness :
  exists w,
    SquareWave Little 1 int8 9 (PyFloat (F64.of_ratio 1 4)) F64.one = Ok w
    /\ duration w = {| numerator := 1; denominator := 3 |}
    /\ exists stop len,
         py_mul_int (PyFloat (F64.of_ratio 1 4)) 9 = Ok stop
         /\ arange_length stop = Some len
         /\ size (samples w) = Z.max 0 len
         /\ arr_dtype (samples w) = int8
         /\ framerate w = 9
         /\ step w = {| numerator := 1; denominator := 9 |}
         /\ numerator (duration w) * 9 = Z.max 0 len * denominator (duration w)
         /\ 0 < denominator (duration w)
         /\ Z.gcd (numerator (duration w)) (denominator (duration w)) = 1.
Proof.
  eexists; split; [vm_compute; reflexivity |].
  split; [reflexivity |].
  apply (constructed_wave_metadata Little Libm.sin 1 int8 9 (PyFloat (F64.of_ratio 1 4))
           F64.one).
  - reflexivity.
  - reflexivity.
  - right; vm_compute; reflexivity.
Defined.

(** ** Square waves of a whole number of seconds *)

Lemma square_rounded_bounded (frequency : Z) (dt : dtype) (rate : Z) (d : pynum)
    (volume : F64.float) (xs : list F64.float) :
  signed_integer_dtype dt = true ->
  valid_binary F64.prec F64.emax volume = true ->
  F64.leb F64.zero volume && F64.leb volume F64.one = true ->
  itemsize dt < 8 \/ F64.ltb volume F64.one = true ->
  square_rounded frequency dt rate d volume = Ok xs ->
  Forall (bounded_by (peak dt)) xs.
Proof.
  intros Hdt Hvalid Hv Hguard Hxs.
  destruct (amplitude_bounded dt volume Hdt Hvalid Hv Hguard) as (A & k & Hrep & HA & Hamp).
  destruct (square_rounded_inv _ _ _ _ _ _ Hdt Hxs) as (even & ->).
  apply Forall_forall; intros x Hx.
  apply in_map_iff in Hx as (y & <- & Hy).
  apply in_map_iff in Hy as (c & <- & _).
  apply bounded_by_weaken with (A := A); [exact HA |].
  apply rint_bounded with (k := k); [exact Hrep |].
  destruct c; [| apply bounded_by_opp]; exact Hamp.
Qed.

(** X5.  With an integer duration [d], positive frequency and frame rate,
    a signed integer dtype and a volume in [0, 1] (below 1 for [int64]),
    the square constructor returns a wave: it has [d * framerate] samples
    and its duration is the fraction [d / 1]; a negative [d] gives an empty
    wave of duration 0 instead of an error. *)
Theorem square_int_duration_constructs (host : endian) (frequency : Z) (dt : dtype)
    (rate d : Z) (volume : F64.float) :
  signed_integer_dtype dt = true ->
  valid_binary F64.prec F64.emax volume = true ->
  F64.leb F64.zero volume && F64.leb volume F64.one = true ->
  itemsize dt < 8 \/ F64.ltb volume F64.one = true ->
  0 < frequency -> 0 < rate ->
  exists w,
    SquareWave host frequency dt rate (PyInt d) volume = Ok w
    /\ size (samples w) = Z.max 0 d * rate
    /\ framerate w = rate
    /\ step w = {| numerator := 1; denominator := rate |}
    /\ duration w = {| numerator := Z.max 0 d; denominator := 1 |}.
Proof.
  intros Hdt Hvalid Hv Hguard Hf Hr.
  destruct (square_exact_for_int_duration frequency dt rate d volume Hdt Hv Hf Hr)
    as (hp & xs & _ & _ & Hxs & Hlen & _).
  pose proof (square_rounded_bounded _ _ _ _ _ _ Hdt Hvalid Hv Hguard Hxs) as Hb.
  destruct (astype_bounded host dt xs Hdt Hb) as [a Ha].
  pose proof (signed_integer_dtype_inv dt Hdt) as [Hk Hw].
  destruct (astype_values host xs dt a ltac:(lia) Ha) as (Hadt & Hndim & _).
  destruct (MonoWave_init_ok a rate) as [w Hinit]; [rewrite Hadt; exact Hk | exact Hndim | lia |].
  exists w; split; [unfold SquareWave; rewrite Hxs; cbn [bind]; rewrite Ha; exact Hinit |].
  destruct (wave_of_rounded host xs dt a rate w ltac:(lia) Hr Ha Hinit)
    as (Hsize & _ & Hrate & Hstep & Hdur).
  assert (Hcount : Z.of_nat (List.length xs) = Z.max 0 d * rate) by nia.
  rewrite Hcount in Hsize, Hdur.
  rewrite Fraction_normalized_multiple in Hdur by lia.
  auto.
Qed.

(** Two seconds of a 3 Hz square wave at 12 frames a second in [int16]. *)
Lemma square_int_duration_constructs_witness :
  exists w,
    SquareWave Little 3 int16 12 (PyInt 2) F64.half = Ok w
    /\ size (samples w) = Z.max 0 2 * 12
    /\ framerate w = 12
    /\ step w = {| numerator := 1; denominator := 12 |}
    /\ duration w = {| numerator := Z.max 0 2; denominator := 1 |}.
Proof.
  apply (square_int_duration_constructs Little 3 int16 12 2 F64.half).
  - reflexivity.
  - reflexivity.
  - reflexivity.
  - left; reflexivity.
  - reflexivity.
  - reflexivity.
Defined.

Example square_negative_duration_is_empty :
  match SquareWave Little 3 int16 12 (PyInt (-1)) F64.half with
  | Ok w => values Little (samples w) = []
            /\ duration w = {| numerator := 0; denominator := 1 |}
  | _ => False
  end.
Proof. vm_compute; split; reflexivity. Qed.

(** ** The first sample of a square wave *)

Lemma iter_pos_invariant {A : Type} (P : A -> Prop) (f : A -> A) :
  (forall x, P x -> P (f x)) -> forall p x, P x -> P (iter_pos f p x).
Proof.
  intros Hf; induction p as [p IH | p IH |]; intros x Hx; cbn [iter_pos]; auto.
Qed.

Lemma shr_1_nonneg (mrs : shr_record) : 0 <= shr_m mrs -> 0 <= shr_m (shr_1 mrs).
Proof.
  destruct mrs as [m r s]; cbn [shr_m].
  destruct m as [| [p | p |] | p]; cbn [shr_1 shr_m]; lia.
Qed.

Lemma shr_fexp_nonneg (m e : Z) (l : location) :
  0 <= m -> 0 <= shr_m (fst (shr_fexp F64.prec F64.emax m e l)).
Proof.
  intros Hm; unfold shr_fexp, shr.
  assert (H0 : 0 <= shr_m (shr_record_of_loc m l)) by (destruct l as [| []]; exact Hm).
  destruct (fexp F64.prec F64.emax (Zdigits2 m + e) - e) as [| p | p]; cbn [fst];
    try exact H0.
  apply iter_pos_invariant; [exact shr_1_nonneg | exact H0].
Qed.

(** Rounding a non-negative mantissa never yields NaN. *)
Lemma binary_round_aux_not_nan (s : bool) (m e : Z) (l : location) :
  0 <= m -> binary_round_aux F64.prec F64.emax s m e l <> S754_nan.
Proof.
  intros Hm; unfold binary_round_aux.
  pose proof (shr_fexp_nonneg m e l Hm) as H1.
  destruct (shr_fexp F64.prec F64.emax m e l) as [mrs e']; cbn [fst] in H1.
  pose proof (round_nearest_even_le (shr_m mrs) (loc_of_shr_record mrs)) as Hr.
  pose proof (shr_fexp_nonneg (round_nearest_even (shr_m mrs) (loc_of_shr_record mrs))
                e' loc_Exact ltac:(lia)) as H2.
  destruct (shr_fexp F64.prec F64.emax _ e' loc_Exact) as [mrs2 e2]; cbn [fst] in H2.
  destruct (shr_m mrs2); [discriminate | | lia].
  destruct (e2 <=? F64.emax - F64.prec); discriminate.
Qed.

(** The float of a positive fraction is a number. *)
Lemma of_ratio_not_nan (a b : Z) : 0 < a -> 0 < b -> F64.of_ratio a b <> S754_nan.
Proof.
  intros Ha Hb; destruct a as [| p | p]; try lia; destruct b as [| q | q]; try lia.
  cbn [F64.of_ratio]; unfold F64.div, SFdiv, SFdiv_core_binary.
  set (m' := match _ - _ - _ with Z0 => Zpos p | Zpos _ => _ | Zneg _ => 0 end).
  assert (Hm' : 0 <= m').
  { unfold m'; destruct (_ - _ - _); try lia. apply Z.shiftl_nonneg; lia. }
  destruct (Z.div_eucl m' (Zpos q)) as [quo r] eqn:E.
  assert (Hq : quo = m' / Zpos q) by (unfold Z.div; rewrite E; reflexivity).
  apply binary_round_aux_not_nan; subst quo; apply Z.div_pos; lia.
Qed.

(** At the float zero the parity test succeeds for every divisor that is
    a number other than zero. *)
Lemma float_even_zero (w : F64.float) :
  w <> S754_nan -> F64.eqb w F64.zero = false -> float_even w (S754_zero false) = true.
Proof.
  intros Hnan Hz; destruct w as [s | s | | s m e];
    [destruct s; discriminate | destruct s; reflexivity | contradiction |
     destruct s; reflexivity].
Qed.

Lemma mapM_head {A B : Type} (f : A -> outcome B) (a : A) (l : list A) (b : B)
    (bs : list B) :
  mapM f (a :: l) = Ok (b :: bs) -> f a = Ok b.
Proof.
  cbn [mapM]; intros H; apply bind_Ok in H as (b' & Hb & H).
  apply bind_Ok in H as (bs' & _ & H); injection H as <- <-; exact Hb.
Qed.

Lemma iota_head (len : Z) (z : Z) (zs : list Z) : iota len = z :: zs -> z = 0.
Proof.
  unfold iota; destruct (Z.to_nat len); cbn; [discriminate | intros [= <- _]; reflexivity].
Qed.

(** X6.  Whenever the square generator returns a non-empty buffer for a
    positive frequency and frame rate, its first sample is the rounded
    [+amplitude]: index 0 lies in an even half period, for an integer and
    for a float duration alike. *)
Theorem square_first_sample_is_high (frequency : Z) (dt : dtype) (rate : Z) (d : pynum)
    (volume : F64.float) (x : F64.float) (xs : list F64.float) :
  signed_integer_dtype dt = true -> 0 < frequency -> 0 < rate ->
  square_rounded frequency dt rate d volume = Ok (x :: xs) ->
  x = F64.rint (F64.mul (F64.of_Z (2 ^ (itemsize dt * 8 - 1) - 1)) volume).
Proof.
  intros Hdt Hf Hr H; unfold square_rounded in H.
  apply bind_Ok in H as (_ & _ & H).
  rewrite amplitude_of_ok in H by exact Hdt; cbn [bind] in H.
  apply bind_Ok in H as (stop & _ & H).
  apply bind_Ok in H as (arr & Harr & H).
  apply bind_Ok in H as (hp & Hhp & H).
  apply bind_Ok in H as (even & Heven & H).
  destruct (half_period_exact frequency rate ltac:(lia)) as (hp' & Hhp' & Hden & Hval).
  rewrite Hhp in Hhp'; injection Hhp' as <-.
  assert (Hnum : 0 < numerator hp) by nia.
  destruct even as [| c even]; [discriminate |].
  injection H as <- _.
  assert (Hc : c = true); [| rewrite Hc; reflexivity].
  destruct stop as [n | x0]; unfold np_arange in Harr.
  - injection Harr as <-; cbn [even_half_period] in Heven.
    destruct (iota n) as [| z zs] eqn:Hi; [discriminate |].
    apply iota_head in Hi as ->; apply mapM_head in Heven.
    unfold int_floordiv_Fraction in Heven.
    destruct (Z.eqb_spec (1 * numerator hp) 0) as [| _]; [lia |].
    cbn [bind Z.mul Z.div Z.div_eucl Z.modulo Z.eqb fst snd] in Heven.
    injection Heven as <-; reflexivity.
  - destruct (F64.ceilZ x0) as [len |]; [| destruct (F64.is_nan x0); discriminate].
    destruct (_ || _); [discriminate |].
    injection Harr as <-; cbn [even_half_period] in Heven.
    destruct (iota len) as [| z zs] eqn:Hi; [discriminate |].
    apply iota_head in Hi as ->; cbn [map] in Heven; apply mapM_head in Heven.
    change (F64.of_Z 0) with (S754_zero false) in Heven.
    unfold float_floordiv_Fraction, F64.floordiv in Heven.
    destruct (F64.eqb (Fraction_float hp) F64.zero) eqn:Hz; [discriminate |].
    cbn [bind] in Heven.
    pose proof (float_even_zero (Fraction_float hp)
                  (of_ratio_not_nan _ _ Hnum Hden) Hz) as Hev.
    unfold float_even in Hev; unfold F64.rem in Heven.
    change (F64.eqb (F64.of_Z 2) F64.zero) with false in Heven.
    cbn [bind] in Heven; injection Heven as <-; exact Hev.
Qed.

(** The program's own square wave: 440 Hz at 44100 frames a second for
    one hundredth of a second starts at [round(63.5) = 64]. *)
Lemma square_first_sample_is_high_witness :
  exists xs,
    square_rounded 440 int8 44100 (PyFloat (F64.of_ratio 1 100)) F64.half
    = Ok (F64.of_Z 64 :: xs)
    /\ F64.of_Z 64 = F64.rint (F64.mul (F64.of_Z (2 ^ (itemsize int8 * 8 - 1) - 1)) F64.half).
Proof.
  eexists; split; [vm_compute; reflexivity |].
  eapply (square_first_sample_is_high 440 int8 44100 (PyFloat (F64.of_ratio 1 100)) F64.half).
  - reflexivity.
  - reflexivity.
  - reflexivity.
  - vm_compute; reflexivity.
Defined.

(** ** Silence *)

Lemma eqb_zero_inv (v : F64.float) :
  F64.eqb v F64.zero = true -> exists s, v = S754_zero s.
Proof.
  destruct v as [s | s | | s m e]; try discriminate; [exists s; reflexivity | |];
    destruct s; discriminate.
Qed.

Lemma amplitude_zero (dt : dtype) (s : bool) :
  signed_integer_dtype dt = true -> amplitude dt (S754_zero s) = S754_zero s.
Proof.
  intros Hdt; apply signed_integer_dtype_inv in Hdt as [_ Hw].
  unfold amplitude, peak.
  destruct Hw as [-> | [-> | [-> | ->]]]; destruct s; reflexivity.
Qed.

Lemma mul_zero_finite (s : bool) (y : F64.float) :
  F64.is_finite y = true -> exists s', F64.mul (S754_zero s) y = S754_zero s'.
Proof.
  destruct y; try discriminate; intros _; eexists; reflexivity.
Qed.

(** A buffer of float zeros is cast to a buffer of integer zeros. *)
Lemma zeros_cast (host : endian) (dt : dtype) (xs : list F64.float) :
  0 < itemsize dt ->
  Forall (fun x => exists s, x = S754_zero s) xs ->
  exists a, astype host xs dt = Ok a /\ Forall (eq 0) (values host a).
Proof.
  intros Hw Hxs.
  destruct (mapM_all_Ok (cast_to_int (itemsize dt)) xs) as [zs Hzs].
  { eapply Forall_impl; [| exact Hxs]; intros x [s ->]; exists 0; reflexivity. }
  assert (Ha : astype host xs dt
               = Ok {| arr_dtype := dt; ndim := 1;
                       elements := map (encode (storage_order host dt) (itemsize dt)) zs |})
    by (unfold astype; rewrite Hzs; reflexivity).
  eexists; split; [exact Ha |].
  destruct (astype_inv host xs dt _ Hw Ha) as (zs' & _ & Hall & ->).
  clear Ha Hzs; induction Hall as [| x z l l' Hxz _ IH]; [constructor |].
  inversion Hxs as [| ? ? [s ->] Hrest]; subst.
  constructor; [cbn in Hxz; congruence | apply IH; exact Hrest].
Qed.

(** X7.  A volume equal to zero (either sign) gives a buffer of zeros: the
    square generator always, the harmonic generator whenever [sin] is
    finite on finite arguments and the phases of the buffer are finite.
    The cast is then defined for every dtype width. *)
Theorem zero_volume_silence (host : endian) (np_sin : F64.float -> F64.float)
    (frequency : Z) (dt : dtype) (rate : Z) (d : pynum) (volume : F64.float) :
  signed_integer_dtype dt = true ->
  F64.eqb volume F64.zero = true ->
  (forall x, F64.is_finite x = true -> F64.is_finite (np_sin x) = true) ->
  (forall n xs,
      harmonic_rounded np_sin frequency dt rate d volume = Ok xs ->
      (n < List.length xs)%nat ->
      F64.is_finite
        (harmonic_phase (F64.mul F64.tau (F64.of_Z frequency)) rate
           (F64.of_Z (Z.of_nat n))) = true) ->
  (forall xs, square_rounded frequency dt rate d volume = Ok xs ->
              exists a, astype host xs dt = Ok a /\ Forall (eq 0) (values host a))
  /\ (forall xs, harmonic_rounded np_sin frequency dt rate d volume = Ok xs ->
                 exists a, astype host xs dt = Ok a /\ Forall (eq 0) (values host a)).
Proof.
  intros Hdt Hv Hsin Hphase.
  destruct (eqb_zero_inv volume Hv) as [s ->].
  pose proof (signed_integer_dtype_inv dt Hdt) as [_ Hw].
  pose proof (amplitude_zero dt s Hdt) as Hamp.
  split; intros xs Hxs; apply zeros_cast; try lia.
  - destruct (square_rounded_inv _ _ _ _ _ _ Hdt Hxs) as (even & ->).
    apply Forall_forall; intros x Hx.
    apply in_map_iff in Hx as (y & <- & Hy).
    apply in_map_iff in Hy as (c & <- & _).
    rewrite Hamp; destruct c; eexists; reflexivity.
  - destruct (harmonic_rounded_inv _ _ _ _ _ _ _ Hdt Hxs) as (len & Heq).
    assert (Hlen : List.length xs = Z.to_nat len)
      by (rewrite Heq, !length_map; apply iota_length).
    rewrite Heq; apply Forall_forall; intros x Hx.
    apply in_map_iff in Hx as (y & <- & Hy).
    apply in_map_iff in Hy as (p & <- & Hp).
    apply in_map_iff in Hp as (z & <- & Hz).
    unfold iota in Hz; apply in_map_iff in Hz as (n & <- & Hn); apply in_seq in Hn.
    unfold harmonic_value; rewrite Hamp.
    destruct (mul_zero_finite s (np_sin (harmonic_phase
                (F64.mul F64.tau (F64.of_Z frequency)) rate (F64.of_Z (Z.of_nat n)))))
      as [s' ->]; [apply Hsin, (Hphase n xs Hxs); lia |].
    eexists; reflexivity.
Qed.

Lemma Libm_sin_finite (x : F64.float) :
  F64.is_finite x = true -> F64.is_finite (Libm.sin x) = true.
Proof.
  intros Hx; apply (bounded_by_finite 1), Libm_sin_bounded, Hx.
Qed.

(** One second at 8 frames a second, volume [-0.0], in [int64]. *)
Lemma zero_volume_silence_witness :
  (forall xs, square_rounded 1 int64 8 (PyFloat F64.one) (S754_zero true) = Ok xs ->
              exists a, astype Little xs int64 = Ok a /\ Forall (eq 0) (values Little a))
  /\ (forall xs,
        harmonic_rounded Libm.sin 1 int64 8 (PyFloat F64.one) (S754_zero true) = Ok xs ->
        exists a, astype Little xs int64 = Ok a /\ Forall (eq 0) (values Little a)).
Proof.
  apply (zero_volume_silence Little Libm.sin 1 int64 8 (PyFloat F64.one) (S754_zero true)).
  - reflexivity.
  - reflexivity.
  - exact Libm_sin_finite.
  - intros n xs Hxs Hn.
    vm_compute in Hxs; injection Hxs as <-; cbn [List.length] in Hn.
    do 8 (destruct n as [| n]; [vm_compute; reflexivity |]).
    exfalso; lia.
Defined.

Example silent_square :
  match SquareWave Little 1 int64 8 (PyFloat F64.one) (S754_zero true) with
  | Ok w => values Little (samples w) = [0; 0; 0; 0; 0; 0; 0; 0]
  | _ => False
  end.
Proof. vm_compute; reflexivity. Qed.

(** ** Bytes in memory and in the file *)

Lemma encode_length (o : endian) (w z : Z) :
  List.length (encode o w z) = Z.to_nat w.
Proof. unfold encode; rewrite in_order_length; apply le_bytes_length. Qed.

Lemma rev_encode_Big (w z : Z) : rev (encode Big w z) = encode Little w z.
Proof. unfold encode; cbn [in_order]; apply rev_involutive. Qed.

Lemma rev_encode_Little (w z : Z) : rev (encode Little w z) = encode Big w z.
Proof. reflexivity. Qed.

Lemma encode_one_byte (o o' : endian) (z : Z) : encode o 1 z = encode o' 1 z.
Proof. destruct o, o'; reflexivity. Qed.

Lemma signed_integer_dtype_order (dt : dtype) :
  signed_integer_dtype dt = true ->
  (byteorder dt = "|"%char /\ itemsize dt = 1)
  \/ (1 < itemsize dt
      /\ (byteorder dt = "="%char \/ byteorder dt = "<"%char \/ byteorder dt = ">"%char)).
Proof.
  unfold signed_integer_dtype; intros H.
  apply andb_true_iff in H as [_ H]; apply orb_true_iff in H as [H | H];
    apply andb_true_iff in H as [Hw Hb].
  - left; apply Z.eqb_eq in Hw; apply Ascii.eqb_eq in Hb; auto.
  - right; split.
    + apply orb_true_iff in Hw as [Hw | Hw]; [apply orb_true_iff in Hw as [Hw | Hw] |];
        apply Z.eqb_eq in Hw; lia.
    + apply orb_true_iff in Hb as [Hb | Hb]; [apply orb_true_iff in Hb as [Hb | Hb] |];
        apply Ascii.eqb_eq in Hb; auto.
Qed.

Lemma decode_encode_all (o : endian) (w : Z) (zs : list Z) :
  0 < w ->
  Forall (fun z => - 2 ^ (8 * w - 1) <= z <= 2 ^ (8 * w - 1) - 1) zs ->
  map (fun z => decode o (encode o w z)) zs = zs.
Proof.
  intros Hw; induction 1 as [| z l Hz _ IH]; cbn [map]; [reflexivity |].
  rewrite IH, decode_encode by assumption; reflexivity.
Qed.

(** X8.  For a signed integer dtype labelled as NumPy labels it on the
    machine (the machine's own order is ["="]), the buffer a constructor
    stores holds every converted sample in the machine's byte order: the
    byte swap of [MonoWave.__init__] undoes a foreign order.  Read under
    the native dtype, as the dropped view would, it shows the converted
    values. *)
Theorem stored_bytes_are_native (host : endian) (dt : dtype) (xs : list F64.float)
    (a : ndarray) (rate : Z) (w : MonoWave) :
  signed_integer_dtype dt = true -> normalized host dt = true ->
  astype host xs dt = Ok a -> MonoWave_init a rate = Ok w ->
  elements (samples w) = map (encode host (itemsize dt)) (values host a)
  /\ values host (view (samples w) (newbyteorder (arr_dtype (samples w)) "="))
     = values host a.
Proof.
  intros Hdt Hnorm Ha Hinit.
  pose proof (signed_integer_dtype_inv dt Hdt) as [_ Hw].
  destruct (astype_inv host xs dt a ltac:(lia) Ha) as (zs & Heq & Hall & Hvals).
  assert (Hrange : Forall (fun z => - 2 ^ (8 * itemsize dt - 1) <= z
                                    <= 2 ^ (8 * itemsize dt - 1) - 1) zs).
  { clear Hvals Heq Ha; induction Hall as [| x z l l' Hxz _ IH]; [constructor |].
    constructor; [| exact IH].
    apply cast_to_int_range with (x := x); [lia | exact Hxz]. }
  apply MonoWave_init_inv in Hinit as (_ & _ & _ & Hs & _).
  rewrite Hvals.
  assert (Hel : elements (samples w) = map (encode host (itemsize dt)) zs).
  { rewrite Hs, Heq; cbn [arr_dtype elements byteswap].
    unfold storage_order; unfold normalized in Hnorm.
    destruct (signed_integer_dtype_order dt Hdt) as [[Hb H1] | [_ [Hb | [Hb | Hb]]]];
      rewrite Hb in *; cbn [Ascii.eqb Bool.eqb negb elements byteswap].
    - rewrite map_map, H1; apply map_ext; intros z.
      destruct host; reflexivity.
    - reflexivity.
    - destruct host; [cbn in Hnorm; discriminate |].
      rewrite map_map; apply map_ext; intros z; apply rev_encode_Little.
    - destruct host; [| cbn in Hnorm; discriminate].
      rewrite map_map; apply map_ext; intros z; apply rev_encode_Big. }
  split; [exact Hel |].
  unfold values, view; cbn [arr_dtype elements]; rewrite Hel, map_map.
  assert (Hso : storage_order host (newbyteorder (arr_dtype (samples w)) "=") = host).
  { unfold storage_order, newbyteorder; cbn [byteorder].
    destruct (itemsize (arr_dtype (samples w)) =? 1); reflexivity. }
  rewrite Hso; apply decode_encode_all; [lia | exact Hrange].
Qed.

(** Big-endian [int16] on a little-endian machine. *)
Lemma stored_bytes_are_native_witness :
  exists a w,
    astype Little (map F64.of_Z [1; -2; 300]) (mkDtype "i" 2 ">") = Ok a
    /\ MonoWave_init a 8 = Ok w
    /\ values Little a = [1; -2; 300]
    /\ elements (samples w) = map (encode Little 2) (values Little a)
    /\ values Little (view (samples w) (newbyteorder (arr_dtype (samples w)) "="))
       = values Little a.
Proof.
  eexists; eexists; split; [reflexivity |]. split; [reflexivity |].
  split; [reflexivity |].
  apply (stored_bytes_are_native Little (mkDtype "i" 2 ">") (map F64.of_Z [1; -2; 300])
           _ 8 _); reflexivity.
Defined.

(** ** Saving *)

Lemma chunks_concat (w : nat) (bss : list (list Z)) :
  Forall (fun bs => List.length bs = w) bss ->
  chunks (List.length bss) w (List.concat bss) = bss
  /\ List.length (List.concat bss) = (List.length bss * w)%nat.
Proof.
  induction 1 as [| bs bss Hbs _ [IH1 IH2]]; [split; reflexivity |].
  cbn [List.length List.concat chunks]; split.
  - rewrite firstn_app, skipn_app, Hbs, Nat.sub_diag; cbn [firstn skipn].
    rewrite <- Hbs at 1 3; rewrite firstn_all, skipn_all, app_nil_r; cbn [app].
    rewrite IH1; reflexivity.
  - rewrite length_app, IH2, Hbs; reflexivity.
Qed.

(** The frames [writeframes] stores for an array in native order are the
    little-endian encodings of its values, on either kind of machine. *)
Lemma frame_bytes_native (host : endian) (dt : dtype) (zs : list Z) :
  signed_integer_dtype dt = true -> native dt = true ->
  frame_bytes host
    {| arr_dtype := dt; ndim := 1;
       elements := map (encode (storage_order host dt) (itemsize dt)) zs |}
  = List.concat (map (encode Little (itemsize dt)) zs).
Proof.
  intros Hdt Hnat; unfold native in Hnat.
  assert (Hso : storage_order host dt = host).
  { unfold storage_order.
    apply orb_true_iff in Hnat as [Hb | Hb]; apply Ascii.eqb_eq in Hb; rewrite Hb;
      reflexivity. }
  rewrite Hso; unfold frame_bytes; cbn [arr_dtype elements].
  destruct host; [reflexivity |].
  destruct (Z.eqb_spec (itemsize dt) 1) as [H1 | _].
  - rewrite H1; f_equal; apply map_ext; intros z; apply encode_one_byte.
  - rewrite map_map; f_equal; apply map_ext; intros z; apply rev_encode_Big.
Qed.

(** The run of [save] that reaches [writeframes]. *)
Lemma save_run (host : endian) (filename : string) (st : State) :
  can_open (world st) filename = true ->
  1 <= itemsize (arr_dtype (samples (self st))) <= 4 ->
  0 < framerate (self st) ->
  header_fits (itemsize (arr_dtype (samples (self st)))) (framerate (self st))
    (size (samples (self st)) * itemsize (arr_dtype (samples (self st)))) = true ->
  save host filename st
  = (Ok tt,
     {| self := self st;
        world :=
          write_file (write_file (world st) filename Unfinished) filename
            (WavFile {| nchannels := 1;
                        sampwidth := itemsize (arr_dtype (samples (self st)));
                        wav_framerate := framerate (self st);
                        comptype := "NONE";
                        frames := frame_bytes host (samples (self st)) |}) |}).
Proof.
  intros Hopen Hw Hr Hfit; unfold save, mbind, open_wb, attr, write; rewrite Hopen;
    cbn [self].
  destruct (Z.ltb_spec (itemsize (arr_dtype (samples (self st)))) 1) as [| _]; [lia |].
  destruct (Z.ltb_spec 4 (itemsize (arr_dtype (samples (self st))))) as [| _]; [lia |].
  cbn [orb ret self]; destruct (Z.leb_spec (framerate (self st)) 0) as [| _]; [lia |].
  cbn [ret self]; rewrite Hfit; reflexivity.
Qed.

Lemma generator_tail (host : endian) (np_sin : F64.float -> F64.float)
    (frequency : Z) (dt : dtype) (rate : Z) (d : pynum) (volume : F64.float)
    (w : MonoWave) :
  SimpleHarmonicWave host np_sin frequency dt rate d volume = Ok w
  \/ SquareWave host frequency dt rate d volume = Ok w ->
  exists xs a, astype host xs dt = Ok a /\ MonoWave_init a rate = Ok w.
Proof.
  intros [H | H]; [unfold SimpleHarmonicWave in H | unfold SquareWave in H];
    apply bind_Ok in H as (xs & _ & H); apply bind_Ok in H as (a & Ha & H);
    exists xs, a; auto.
Qed.

(** X9.  Saving a wave that a generator built with a native signed integer
    dtype of 1, 2 or 4 bytes and a positive frame rate succeeds when the
    file can be opened and the header fields fit in 32 bits: the byte rate
    (frame rate times sample width, hence the frame rate too) and the
    length of the file (36 bytes of header and the samples) are below
    [2 ^ 32].  The file then is a one-channel uncompressed WAV
    with that sample width and frame rate whose frames are the samples in
    little-endian two's complement, on a little-endian and on a big-endian
    machine alike, so that reading the frames back gives the sample
    values; no other file and no plot is touched. *)
Theorem save_writes_little_endian (host : endian) (np_sin : F64.float -> F64.float)
    (frequency : Z) (dt : dtype) (rate : Z) (d : pynum) (volume : F64.float)
    (w : MonoWave) (wd : World) (filename : string) :
  signed_integer_dtype dt = true -> native dt = true -> itemsize dt <= 4 -> 0 < rate ->
  rate * itemsize dt < 2 ^ 32 ->
  SimpleHarmonicWave host np_sin frequency dt rate d volume = Ok w
  \/ SquareWave host frequency dt rate d volume = Ok w ->
  36 + size (samples w) * itemsize dt < 2 ^ 32 ->
  can_open wd filename = true ->
  fst (save host filename {| self := w; world := wd |}) = Ok tt
  /\ (exists fl,
        files (world (snd (save host filename {| self := w; world := wd |}))) filename
        = Some (WavFile fl)
        /\ nchannels fl = 1 /\ sampwidth fl = itemsize dt /\ wav_framerate fl = rate
        /\ comptype fl = "NONE"%string
        /\ frames fl
           = List.concat (map (encode Little (itemsize dt)) (values host (samples w)))
        /\ wav_samples fl = values host (samples w))
  /\ (forall n, n <> filename ->
        files (world (snd (save host filename {| self := w; world := wd |}))) n
        = files wd n)
  /\ plots (world (snd (save host filename {| self := w; world := wd |}))) = plots wd.
Proof.
  intros Hdt Hnat Hw4 Hr Hbr Hgen Hsz Hopen.
  destruct (generator_tail _ _ _ _ _ _ _ _ Hgen) as (xs & a & Ha & Hinit).
  pose proof (signed_integer_dtype_inv dt Hdt) as [_ Hw].
  assert (Hb : byteorder dt = "="%char \/ byteorder dt = "|"%char).
  { unfold native in Hnat; apply orb_true_iff in Hnat as [Hb | Hb];
      apply Ascii.eqb_eq in Hb; auto. }
  pose proof (native_buffer_stored host dt xs a rate w Hdt Hb Ha Hinit) as Hs.
  destruct (astype_inv host xs dt a ltac:(lia) Ha) as (zs & Heq & Hall & Hvals).
  assert (Hrange : Forall (fun z => - 2 ^ (8 * itemsize dt - 1) <= z
                                    <= 2 ^ (8 * itemsize dt - 1) - 1) zs).
  { clear Hvals Heq Ha Hs; induction Hall as [| x z l l' Hxz _ IH]; [constructor |].
    constructor; [| exact IH].
    apply cast_to_int_range with (x := x); [lia | exact Hxz]. }
  apply MonoWave_init_inv in Hinit as (_ & _ & _ & _ & Hf & _).
  assert (Hfit : header_fits (itemsize dt) rate (size (samples w) * itemsize dt) = true).
  { unfold header_fits; repeat (apply andb_true_iff; split); apply Z.ltb_lt; lia. }
  rewrite save_run; cbn [self world samples fst snd]; rewrite ?Hs, ?Hf, ?Heq;
    cbn [arr_dtype]; try lia; try exact Hopen.
  2:{ rewrite <- Heq, <- Hs; exact Hfit. }
  rewrite <- Heq, Hvals.
  split; [reflexivity |].
  split; [| split].
  - eexists; split.
    { unfold write_file; cbn [files]; rewrite String.eqb_refl; reflexivity. }
    cbn [nchannels sampwidth wav_framerate comptype frames].
    rewrite Heq, frame_bytes_native by assumption.
    repeat split.
    unfold wav_samples; cbn [sampwidth frames].
    destruct (chunks_concat (Z.to_nat (itemsize dt))
                (map (encode Little (itemsize dt)) zs)) as [Hch Hlen].
    { apply Forall_forall; intros bs Hbs; apply in_map_iff in Hbs as (z & <- & _).
      apply encode_length. }
    rewrite Hlen, Nat.div_mul by lia; rewrite Hch, map_map.
    apply decode_encode_all; [lia | exact Hrange].
  - intros n Hn; unfold write_file; cbn [files].
    apply String.eqb_neq in Hn; rewrite Hn; reflexivity.
  - reflexivity.
Qed.

(** One second of square wave in [int16] on a big-endian machine, saved
    into an empty file system. *)
Lemma save_writes_little_endian_witness :
  exists w,
    SquareWave Big 1 int16 2 (PyFloat F64.one) F64.half = Ok w
    /\ values Big (samples w) = [16384; -16384]
    /\ fst (save Big "square.wav"
              {| self := w; world := mkWorld [] (fun _ => None) (fun _ => true) |}) = Ok tt
    /\ (exists fl,
          files (world (snd (save Big "square.wav"
                               {| self := w;
                                  world := mkWorld [] (fun _ => None) (fun _ => true) |})))
            "square.wav"
          = Some (WavFile fl)
          /\ nchannels fl = 1 /\ sampwidth fl = itemsize int16 /\ wav_framerate fl = 2
          /\ comptype fl = "NONE"%string
          /\ frames fl
             = List.concat (map (encode Little (itemsize int16)) (values Big (samples w)))
          /\ wav_samples fl = values Big (samples w))
    /\ (forall n, n <> "square.wav"%string ->
          files (world (snd (save Big "square.wav"
                               {| self := w;
                                  world := mkWorld [] (fun _ => None) (fun _ => true) |})))
            n
          = files (mkWorld [] (fun _ => None) (fun _ => true)) n)
    /\ plots (world (snd (save Big "square.wav"
                            {| self := w;
                               world := mkWorld [] (fun _ => None) (fun _ => true) |})))
       = plots (mkWorld [] (fun _ => None) (fun _ => true)).
Proof.
  eexists; split; [vm_compute; reflexivity |].
  split; [reflexivity |].
  apply (save_writes_little_endian Big Libm.sin 1 int16 2 (PyFloat F64.one) F64.half).
  - reflexivity.
  - reflexivity.
  - apply Z.leb_le; reflexivity.
  - reflexivity.
  - reflexivity.
  - right; vm_compute; reflexivity.
  - reflexivity.
  - reflexivity.
Defined.

Example saved_frames_big_endian_host :
  match SquareWave Big 1 int16 2 (PyFloat F64.one) F64.half with
  | Ok w => elements (samples w) = [[64; 0]; [192; 0]]
            /\ frame_bytes Big (samples w) = [0; 64; 0; 192]
  | _ => False
  end.
Proof. vm_compute; split; reflexivity. Qed.

(** At a frame rate of [2 ^ 31] the byte rate of [int16] samples needs 33
    bits: [save] raises [struct.error] and the file holds the tag twice. *)
Example save_byte_rate_overflow :
  match SquareWave Little 1 int16 2147483648 (PyInt 0) F64.half with
  | Ok w =>
      let st := save Little "square.wav"
                  {| self := w; world := mkWorld [] (fun _ => None) (fun _ => true) |} in
      fst st = Raise StructError
      /\ files (world (snd st)) "square.wav" = Some (NotWav [82; 73; 70; 70; 82; 73; 70; 70])
  | _ => False
  end.
Proof. vm_compute; split; reflexivity. Qed.

(** The run of [save] in which [setsampwidth] refuses the width. *)
Lemma save_bad_width (host : endian) (filename : string) (st : State) :
  can_open (world st) filename = true ->
  itemsize (arr_dtype (samples (self st))) < 1
  \/ 4 < itemsize (arr_dtype (samples (self st))) ->
  save host filename st
  = (Raise (WaveError "sample width not specified"),
     {| self := self st; world := write_file (world st) filename Unfinished |}).
Proof.
  intros Hopen Hw; unfold save, mbind, open_wb, attr, write; rewrite Hopen; cbn [self].
  destruct (Z.ltb_spec (itemsize (arr_dtype (samples (self st)))) 1) as [| H1];
    [reflexivity |].
  destruct (Z.ltb_spec 4 (itemsize (arr_dtype (samples (self st))))) as [| H4];
    [reflexivity | lia].
Qed.

(** X10.  A wave built by a generator with an 8-byte dtype cannot be
    saved: the [wave] module takes sample widths of 1 to 4 bytes only.
    When the file can be opened, [save] raises [wave.Error] and leaves the
    file it created without content; when it cannot, [save] raises
    [OSError] and changes nothing.  Other files and the plots are
    untouched in both cases. *)
Theorem save_rejects_wide_samples (host : endian) (np_sin : F64.float -> F64.float)
    (frequency : Z) (dt : dtype) (rate : Z) (d : pynum) (volume : F64.float)
    (w : MonoWave) (wd : World) (filename : string) :
  signed_integer_dtype dt = true -> itemsize dt = 8 ->
  SimpleHarmonicWave host np_sin frequency dt rate d volume = Ok w
  \/ SquareWave host frequency dt rate d volume = Ok w ->
  (can_open wd filename = true ->
   (exists msg, fst (save host filename {| self := w; world := wd |})
                = Raise (WaveError msg))
   /\ files (world (snd (save host filename {| self := w; world := wd |}))) filename
      = Some Unfinished
   /\ (forall n, n <> filename ->
         files (world (snd (save host filename {| self := w; world := wd |}))) n
         = files wd n)
   /\ plots (world (snd (save host filename {| self := w; world := wd |}))) = plots wd)
  /\ (can_open wd filename = false ->
      save host filename {| self := w; world := wd |}
      = (Raise OSError, {| self := w; world := wd |})).
Proof.
  intros Hdt H8 Hgen.
  destruct (generator_tail _ _ _ _ _ _ _ _ Hgen) as (xs & a & Ha & Hinit).
  destruct (astype_inv host xs dt a ltac:(lia) Ha) as (zs & Heq & _ & _).
  apply MonoWave_init_inv in Hinit as (_ & _ & _ & Hs & _).
  assert (Hwidth : itemsize (arr_dtype (samples w)) = 8).
  { rewrite Hs; destruct (negb _); rewrite Heq; exact H8. }
  split; intros Hopen.
  2:{ unfold save, mbind, open_wb; cbn [self world]; rewrite Hopen; reflexivity. }
  rewrite save_bad_width; cbn [self world]; [| exact Hopen | lia].
  cbn [fst snd world self].
  split; [eexists; reflexivity |].
  split; [unfold write_file; cbn [files]; rewrite String.eqb_refl; reflexivity |].
  split; [| reflexivity].
  intros n Hn; unfold write_file; cbn [files].
  apply String.eqb_neq in Hn; rewrite Hn; reflexivity.
Qed.

Lemma save_rejects_wide_samples_witness :
  exists w,
    SquareWave Little 1 int64 2 (PyFloat F64.one) F64.half = Ok w
    /\ values Little (samples w) = [4611686018427387904; -4611686018427387904]
    /\ (can_open (mkWorld [] (fun _ => None) (fun _ => true)) "square.wav" = true ->
        (exists msg,
            fst (save Little "square.wav"
                   {| self := w; world := mkWorld [] (fun _ => None) (fun _ => true) |})
            = Raise (WaveError msg))
        /\ files (world (snd (save Little "square.wav"
                                {| self := w;
                                   world := mkWorld [] (fun _ => None) (fun _ => true) |})))
             "square.wav"
           = Some Unfinished
        /\ (forall n, n <> "square.wav"%string ->
              files (world (snd (save Little "square.wav"
                                   {| self := w;
                                      world := mkWorld [] (fun _ => None) (fun _ => true) |})))
                n
              = files (mkWorld [] (fun _ => None) (fun _ => true)) n)
        /\ plots (world (snd (save Little "square.wav"
                                {| self := w;
                                   world := mkWorld [] (fun _ => None) (fun _ => true) |})))
           = plots (mkWorld [] (fun _ => None) (fun _ => true)))
    /\ (can_open (mkWorld [] (fun _ => None) (fun _ => true)) "square.wav" = false ->
        save Little "square.wav"
          {| self := w; world := mkWorld [] (fun _ => None) (fun _ => true) |}
        = (Raise OSError,
           {| self := w; world := mkWorld [] (fun _ => None) (fun _ => true) |})).
Proof.
  eexists; split; [vm_compute; reflexivity |].
  split; [reflexivity |].
  apply (save_rejects_wide_samples Little Libm.sin 1 int64 2 (PyFloat F64.one) F64.half).
  - reflexivity.
  - reflexivity.
  - right; vm_compute; reflexivity.
Defined.

(** ** Sample formulas, end to end *)

(** Floor division by the half period is floor division of
    [2 * frequency * n] by the frame rate. *)
Lemma half_period_quotient (hp : Fraction) (frequency rate n : Z) :
  0 < frequency -> 0 < rate -> 0 < denominator hp ->
  numerator hp * (2 * frequency) = rate * denominator hp ->
  (n * denominator hp) / numerator hp = (2 * frequency * n) / rate.
Proof.
  intros Hf Hr Hden Hval.
  assert (Hnum : 0 < numerator hp) by nia.
  set (q := (n * denominator hp) / numerator hp).
  pose proof (Z.div_mod (n * denominator hp) (numerator hp) ltac:(lia)) as Hdm.
  pose proof (Z.mod_pos_bound (n * denominator hp) (numerator hp) Hnum) as Hrem.
  fold q in Hdm.
  set (r := (n * denominator hp) mod numerator hp) in *.
  apply Z.div_unique with (r := 2 * frequency * n - rate * q).
  - left.
    assert (Hkey : (2 * frequency * n - rate * q) * denominator hp = r * (2 * frequency)).
    { replace ((2 * frequency * n - rate * q) * denominator hp)
        with (2 * frequency * (n * denominator hp) - (rate * denominator hp) * q) by ring.
      rewrite Hdm, <- Hval; ring. }
    split; nia.
  - ring.
Qed.

(** X11.  With an integer duration and positive frequency and frame rate
    the square generator puts the rounded [+amplitude] at index [n] when
    [floor (2 * frequency * n / framerate)] is even and the rounded
    [-amplitude] otherwise, for every index of its [d * framerate]
    samples: no rounding enters the choice. *)
Theorem square_int_duration_samples (frequency : Z) (dt : dtype) (rate d : Z)
    (volume : F64.float) :
  signed_integer_dtype dt = true ->
  F64.leb F64.zero volume && F64.leb volume F64.one = true ->
  0 < frequency -> 0 < rate ->
  exists xs,
    square_rounded frequency dt rate (PyInt d) volume = Ok xs
    /\ Z.of_nat (List.length xs) = Z.max 0 (d * rate)
    /\ forall n, 0 <= n < d * rate ->
         nth_error xs (Z.to_nat n)
         = Some (F64.rint
                   (if Z.even ((2 * frequency * n) / rate)
                    then F64.mul (F64.of_Z (2 ^ (itemsize dt * 8 - 1) - 1)) volume
                    else F64.opp
                           (F64.mul (F64.of_Z (2 ^ (itemsize dt * 8 - 1) - 1)) volume))).
Proof.
  intros Hdt Hv Hf Hr.
  destruct (square_exact_for_int_duration frequency dt rate d volume Hdt Hv Hf Hr)
    as (hp & xs & Hhp & Hval & Hxs & Hlen & Hnth).
  destruct (half_period_exact frequency rate ltac:(lia)) as (hp' & Hhp' & Hden & _).
  rewrite Hhp in Hhp'; injection Hhp' as <-.
  exists xs; split; [exact Hxs |]. split; [lia |].
  intros n Hn; rewrite Hnth by lia.
  unfold square_sample_spec; rewrite Z2Nat.id by lia.
  rewrite (half_period_quotient hp frequency rate n) by assumption.
  reflexivity.
Qed.

(** Three hertz at 12 frames a second for two seconds: a half period is
    two samples long. *)
Lemma square_int_duration_samples_witness :
  exists xs,
    square_rounded 3 int8 12 (PyInt 2) F64.one = Ok xs
    /\ Z.of_nat (List.length xs) = Z.max 0 (2 * 12)
    /\ forall n, 0 <= n < 2 * 12 ->
         nth_error xs (Z.to_nat n)
         = Some (F64.rint
                   (if Z.even ((2 * 3 * n) / 12)
                    then F64.mul (F64.of_Z (2 ^ (itemsize int8 * 8 - 1) - 1)) F64.one
                    else F64.opp
                           (F64.mul (F64.of_Z (2 ^ (itemsize int8 * 8 - 1) - 1)) F64.one))).
Proof.
  apply (square_int_duration_samples 3 int8 12 2 F64.one); reflexivity.
Defined.

(** X12.  For a native signed integer dtype the buffer a wave carries is
    the cast buffer itself, so the formulas hold for the stored samples:
    sample [n] of a harmonic wave is the conversion of
    [round (amplitude * sin (tau * frequency * n / framerate))], and every
    sample of a square wave is the converted rounded amplitude or its
    negation. *)
Theorem stored_samples_follow_formulas (host : endian) (np_sin : F64.float -> F64.float)
    (frequency : Z) (dt : dtype) (rate : Z) (d : pynum) (volume : F64.float) :
  signed_integer_dtype dt = true -> native dt = true ->
  (forall w n z,
      SimpleHarmonicWave host np_sin frequency dt rate d volume = Ok w ->
      nth_error (values host (samples w)) n = Some z ->
      cast_to_int (itemsize dt)
        (F64.rint
           (F64.mul (F64.mul (F64.of_Z (2 ^ (itemsize dt * 8 - 1) - 1)) volume)
              (np_sin
                 (F64.div
                    (F64.mul (F64.mul F64.tau (F64.of_Z frequency)) (F64.of_Z (Z.of_nat n)))
                    (F64.of_Z rate))))) = Ok z)
  /\ (forall w n z p,
        SquareWave host frequency dt rate d volume = Ok w ->
        nth_error (values host (samples w)) n = Some z ->
        cast_to_int (itemsize dt)
          (F64.rint (F64.mul (F64.of_Z (2 ^ (itemsize dt * 8 - 1) - 1)) volume)) = Ok p ->
        z = p \/ z = - p).
Proof.
  intros Hdt Hnat.
  pose proof (signed_integer_dtype_inv dt Hdt) as [_ Hw].
  assert (Hb : byteorder dt = "="%char \/ byteorder dt = "|"%char).
  { unfold native in Hnat; apply orb_true_iff in Hnat as [Hb | Hb];
      apply Ascii.eqb_eq in Hb; auto. }
  assert (Hnth2 : forall (xs : list F64.float) (zs : list Z) n z,
             Forall2 (fun x z => cast_to_int (itemsize dt) x = Ok z) xs zs ->
             nth_error zs n = Some z ->
             exists x, nth_error xs n = Some x /\ cast_to_int (itemsize dt) x = Ok z).
  { intros xs zs n z Hall; revert n.
    induction Hall as [| x0 z0 l l' H0 _ IH]; intros [| n]; cbn; try discriminate.
    - intros [= <-]; exists x0; auto.
    - apply IH. }
  split.
  - intros w n z H Hz; unfold SimpleHarmonicWave in H.
    apply bind_Ok in H as (xs & Hxs & H); apply bind_Ok in H as (a & Ha & Hinit).
    rewrite (native_buffer_stored host dt xs a rate w Hdt Hb Ha Hinit) in Hz.
    destruct (astype_inv host xs dt a ltac:(lia) Ha) as (zs & _ & Hall & Hvals).
    rewrite Hvals in Hz.
    destruct (Hnth2 xs zs n z Hall Hz) as (x & Hx & Hcast).
    destruct (harmonic_rounded_inv _ _ _ _ _ _ _ Hdt Hxs) as (len & Heq).
    rewrite Heq, !nth_error_map in Hx.
    destruct (nth_error (iota len) n) as [k |] eqn:Hk; [| discriminate].
    assert (Hkn : k = Z.of_nat n).
    { destruct (Nat.lt_ge_cases n (Z.to_nat len)) as [Hlt | Hge].
      - rewrite iota_nth in Hk by exact Hlt; congruence.
      - rewrite <- (iota_length len) in Hge.
        apply nth_error_None in Hge; congruence. }
    subst k; cbn [option_map] in Hx; injection Hx as <-; exact Hcast.
  - intros w n z p H Hz Hp; unfold SquareWave in H.
    apply bind_Ok in H as (xs & Hxs & H); apply bind_Ok in H as (a & Ha & Hinit).
    rewrite (native_buffer_stored host dt xs a rate w Hdt Hb Ha Hinit) in Hz.
    destruct (astype_inv host xs dt a ltac:(lia) Ha) as (zs & _ & Hall & Hvals).
    rewrite Hvals in Hz.
    destruct (Hnth2 xs zs n z Hall Hz) as (x & Hx & Hcast).
    destruct (square_rounded_inv _ _ _ _ _ _ Hdt Hxs) as (even & Heq).
    rewrite Heq, !nth_error_map in Hx.
    destruct (nth_error even n) as [c |]; [| discriminate].
    cbn [option_map] in Hx; injection Hx as <-.
    fold (peak dt) in Hp; fold (amplitude dt volume) in Hp.
    destruct c; [left; congruence | right].
    rewrite rint_opp in Hcast.
    apply cast_to_int_opp with (w := itemsize dt) (y := F64.rint (amplitude dt volume));
      assumption.
Qed.

Lemma stored_samples_follow_formulas_witness :
  (exists w,
      SimpleHarmonicWave Big Libm.sin 1 int16 8 (PyFloat F64.one) F64.half = Ok w
      /\ values Big (samples w) = [0; 11585; 16384; 11585; 0; -11585; -16384; -11585])
  /\ (exists w,
        SquareWave Big 1 int16 8 (PyFloat F64.one) F64.half = Ok w
        /\ values Big (samples w)
           = [16384; 16384; 16384; 16384; -16384; -16384; -16384; -16384])
  /\ (forall w n z,
      SimpleHarmonicWave Big Libm.sin 1 int16 8 (PyFloat F64.one) F64.half = Ok w ->
      nth_error (values Big (samples w)) n = Some z ->
      cast_to_int (itemsize int16)
        (F64.rint
           (F64.mul (F64.mul (F64.of_Z (2 ^ (itemsize int16 * 8 - 1) - 1)) F64.half)
              (Libm.sin
                 (F64.div
                    (F64.mul (F64.mul F64.tau (F64.of_Z 1)) (F64.of_Z (Z.of_nat n)))
                    (F64.of_Z 8))))) = Ok z)
  /\ (forall w n z p,
        SquareWave Big 1 int16 8 (PyFloat F64.one) F64.half = Ok w ->
        nth_error (values Big (samples w)) n = Some z ->
        cast_to_int (itemsize int16)
          (F64.rint (F64.mul (F64.of_Z (2 ^ (itemsize int16 * 8 - 1) - 1)) F64.half)) = Ok p ->
        z = p \/ z = - p).
Proof.
  split; [eexists; split; [vm_compute; reflexivity | reflexivity] |].
  split; [eexists; split; [vm_compute; reflexivity | reflexivity] |].
  apply (stored_samples_follow_formulas Big Libm.sin 1 int16 8 (PyFloat F64.one) F64.half);
    reflexivity.
Defined.
